(** * Query Console (frontend/script.js): a shallow embedding and its properties

    The script binds one click handler to the ask button.  The handler reads
    the question field, may show an alert, writes to four places of the page
    (the visibility of the output container, the text of the answer and of the
    query region, the markup of the table region), performs one [fetch], reads
    the body of the response with [res.json()], and reports to the console.

    The embedding has three layers:
    - [JsEngine]: the built-in operations of the JavaScript engine whose
      result depends on Unicode, on IEEE doubles or on the engine's own
      wording ([trim], number printing, number comparison, the text of engine
      errors and of built-in members).  Everything is proved for an arbitrary
      engine; [AsciiEngine] is a concrete one to run examples.
    - values, property reads, [Object.keys], [ToString], truthiness, and the
      order in which [JSON.parse] lists the keys of an object: the part of
      the language the handler uses on a parsed JSON body.
    - the handler itself, in a state-and-exception monad over a [World] that
      holds the page and the chronological trace of every effect.

    Scope.  A string is the text of a JavaScript string; the engine supplies
    what depends on its division into code units.  [innerHTML] is the markup
    assigned, not the tree the browser parses from it.  An activation runs
    from the click to the end of the handler: [await] is a call that returns
    what the network or the body reader answers, and activations of a session
    follow one another in a [session]; [run] interleaves the two halves of
    activations that overlap. *)

From Stdlib Require Import String Ascii List Bool Arith Lia ZArith.
From Stdlib Require Import DecimalString Decimal DecimalNat.
From Stdlib Require Import Permutation Sorted.
Import ListNotations.
Open Scope string_scope.

Set Implicit Arguments.
Set Warnings "-register-all".

(** ** Text helpers *)

(** The line feed and the double quote, which the template literal of the
    table and the JSON request body contain. *)
Definition nl : string := String (ascii_of_nat 10) EmptyString.
Definition dquote : string := String (ascii_of_nat 34) EmptyString.

(** [String.prototype.includes]: [sub] occurs somewhere in [s]. *)
Fixpoint includes (s sub : string) : bool :=
  if prefix sub s then true
  else match s with
       | EmptyString => false
       | String _ rest => includes rest sub
       end.

(** A string used as a condition is false exactly when it is empty. *)
Definition nonempty (s : string) : bool :=
  match s with EmptyString => false | String _ _ => true end.

(** [Array.prototype.join] with a separator. *)
Definition join (sep : string) (l : list string) : string := String.concat sep l.

(** Decimal text of a natural number, as [ToString] prints an integer. *)
Definition nat_to_string (n : nat) : string :=
  NilEmpty.string_of_uint (Nat.to_uint n).

(** A property key that is a canonical array index ("0", "7", "12", not "07"). *)
Definition parse_index (k : string) : option nat :=
  match NilEmpty.uint_of_string k with
  | Some u => let n := Nat.of_uint u in
              if (nat_to_string n =? k)%string then Some n else None
  | None => None
  end.

(** A property key that is an array index: the canonical decimal text of an
    integer below 2^32 - 1. *)
Definition array_index (k : string) : option N :=
  match NilEmpty.uint_of_string k with
  | Some u => let n := N.of_uint u in
              if ((NilEmpty.string_of_uint (N.to_uint n) =? k)%string
                  && (n <? 4294967295)%N)%bool
              then Some n else None
  | None => None
  end.

(** ** The engine *)

(** What the engine reports when the handler's code makes it throw. *)
Inductive Fault : Type :=
| ReadOfNullish (prop : string)   (* [x.p] or [x[p]] with [x] null or undefined *)
| KeysOfNullish                   (* [Object.keys(x)] with [x] null or undefined *)
| NotAFunction (prop : string)    (* [x.p(...)] where [x.p] is not callable *)
| NotPrimitive.                   (* an object with no usable [toString] is converted *)

(** The built-in prototype a value inherits from. *)
Inductive Proto : Type :=
| ObjectProto | ArrayProto | StringProto | NumberProto | BooleanProto.

Class JsEngine : Type := {
  (** IEEE doubles, as [JSON.parse] produces them. *)
  num : Type;
  (** A number used as a condition: false for [+0], [-0] and [NaN]. *)
  num_truthy : num -> bool;
  (** [Number::toString]. *)
  num_to_string : num -> string;
  (** [n > 0]. *)
  num_gt_zero : num -> bool;
  (** The number of a length. *)
  num_of_nat : nat -> num;
  (** [s > 0] for a string [s], which the engine first converts to a number. *)
  str_gt_zero : string -> bool;
  (** The UTF-16 code units of a string, each as a string of length one. *)
  code_units : string -> list string;
  (** [String.prototype.trim]. *)
  trim : string -> string;
  (** The [message] of the [TypeError] the engine throws. *)
  fault_message : Fault -> string;
  (** What a template literal shows for [x[k]] when [k] is no own property of
      [x] but a member that [x] inherits from its prototype chain (a built-in
      method, [constructor], [__proto__]); [None] when there is no such
      member. *)
  inherited_text : Proto -> string -> option string;
  (** No built-in prototype has a member named like a field of the payload,
      and only arrays and strings have a length. *)
  inherited_text_field :
    forall (proto : Proto) (k : string),
      In k ["detail"; "error"; "answer"; "sql"; "rows"; "0"] ->
      inherited_text proto k = None;
  inherited_text_length :
    forall proto : Proto,
      proto <> ArrayProto -> proto <> StringProto ->
      inherited_text proto "length" = None;
  (** A length is positive exactly when it is not zero. *)
  num_gt_zero_of_nat : forall n : nat, num_gt_zero (num_of_nat n) = (0 <? n)%nat
}.

(** ** Errors and results *)

(** A thrown value.  Everything thrown in the handler is an [Error] object
    (from [new Error], from the engine, from [fetch] or from [res.json()]);
    the handler reads its [message] only. *)
Record JsError : Type := mkError { message : string }.

Inductive Result (A : Type) : Type :=
| Ok (a : A)
| Throw (e : JsError).
Arguments Ok {A} a.
Arguments Throw {A} e.

Definition rbind {A B} (r : Result A) (k : A -> Result B) : Result B :=
  match r with
  | Ok a => k a
  | Throw e => Throw e
  end.

(** [Array.prototype.map] with a callback that may throw: elements are visited
    from left to right and the first throw ends the call. *)
Fixpoint map_result {A B} (f : A -> Result B) (l : list A) : Result (list B) :=
  match l with
  | [] => Ok []
  | x :: rest =>
      rbind (f x) (fun y => rbind (map_result f rest) (fun ys => Ok (y :: ys)))
  end.

Section Values.
Context {engine : JsEngine}.

(** ** Values

    The values the handler sees: what [JSON.parse] builds, and [undefined],
    which only a property read produces.  The fields of an object are its own
    properties in the order [Object.keys] lists them. *)
Inductive value : Type :=
| VUndefined
| VNull
| VBool (b : bool)
| VNum (n : num)
| VStr (s : string)
| VArr (items : list value)
| VObj (fields : list (string * value)).

(** [ToBoolean]. *)
Definition truthy (v : value) : bool :=
  match v with
  | VUndefined | VNull => false
  | VBool b => b
  | VNum n => num_truthy n
  | VStr s => nonempty s
  | VArr _ | VObj _ => true
  end.

(** [a || b] when evaluating [b] cannot throw. *)
Definition js_or (a b : value) : value := if truthy a then a else b.

(** The first own property named [k]. *)
Fixpoint own (fields : list (string * value)) (k : string) : option value :=
  match fields with
  | [] => None
  | (k', v) :: rest => if (k' =? k)%string then Some v else own rest k
  end.

(** [ToString], as a template literal applies it.  An array prints its items
    separated by commas, null and undefined items as nothing.  An object
    prints through the [toString] it finds: the inherited one gives
    [[object Object]]; an own property of that name, which in a parsed body is
    never a function, hides it, and the conversion throws. *)
Fixpoint to_string (v : value) : Result string :=
  match v with
  | VUndefined => Ok "undefined"
  | VNull => Ok "null"
  | VBool true => Ok "true"
  | VBool false => Ok "false"
  | VNum n => Ok (num_to_string n)
  | VStr s => Ok s
  | VArr items =>
      rbind ((fix each (l : list value) : Result (list string) :=
                match l with
                | [] => Ok []
                | item :: rest =>
                    rbind (match item with
                           | VUndefined | VNull => Ok ""
                           | _ => to_string item
                           end)
                          (fun t => rbind (each rest) (fun ts => Ok (t :: ts)))
                end) items)
            (fun ts => Ok (join "," ts))
  | VObj fields =>
      match own fields "toString" with
      | Some _ => Throw (mkError (fault_message NotPrimitive))
      | None => Ok "[object Object]"
      end
  end.

(** The own property [k] of a value: a field of an object, the length or an
    item of an array, the length or a code unit of a string. *)
Definition own_property (v : value) (k : string) : option value :=
  match v with
  | VUndefined | VNull | VBool _ | VNum _ => None
  | VStr s =>
      if (k =? "length")%string
      then Some (VNum (num_of_nat (List.length (code_units s))))
      else match parse_index k with
           | Some i => nth_error (map VStr (code_units s)) i
           | None => None
           end
  | VArr items =>
      if (k =? "length")%string
      then Some (VNum (num_of_nat (List.length items)))
      else match parse_index k with
           | Some i => nth_error items i
           | None => None
           end
  | VObj fields => own fields k
  end.

(** A property read [v.k] where [k] is one of the names the handler writes out
    ([detail], [error], [answer], [sql], [rows], [length], [0]): nothing is
    inherited under such a name that an own property does not hide, so the
    read gives the own property or undefined.  Reading a property of null or
    undefined throws. *)
Definition get (v : value) (k : string) : Result value :=
  match v with
  | VUndefined | VNull => Throw (mkError (fault_message (ReadOfNullish k)))
  | _ => match own_property v k with
         | Some x => Ok x
         | None => Ok VUndefined
         end
  end.

(** The prototype of a value that has one. *)
Definition proto_of (v : value) : option Proto :=
  match v with
  | VUndefined | VNull => None
  | VBool _ => Some BooleanProto
  | VNum _ => Some NumberProto
  | VStr _ => Some StringProto
  | VArr _ => Some ArrayProto
  | VObj _ => Some ObjectProto
  end.

(** The text of [${r[h]}] for an arbitrary key [h] (line 117): the own
    property converted with [ToString]; else the member of that name that [r]
    inherits from its prototype chain; else undefined. *)
Definition member_text (r : value) (h : string) : Result string :=
  match proto_of r with
  | None => Throw (mkError (fault_message (ReadOfNullish h)))
  | Some proto =>
      match own_property r h with
      | Some x => to_string x
      | None =>
          match inherited_text proto h with
          | Some text => Ok text
          | None => Ok "undefined"
          end
      end
  end.

(** The index keys "0" .. "n-1". *)
Definition index_keys (n : nat) : list string := map nat_to_string (seq 0 n).

(** [Object.keys]. *)
Definition object_keys (v : value) : Result (list string) :=
  match v with
  | VUndefined | VNull => Throw (mkError (fault_message KeysOfNullish))
  | VBool _ | VNum _ => Ok []
  | VStr s => Ok (index_keys (List.length (code_units s)))
  | VArr items => Ok (index_keys (List.length items))
  | VObj fields => Ok (map fst fields)
  end.

(** [v > 0]: the value is converted to a primitive, then to a number.  An
    array or an object goes through its [toString], which may throw; the text
    of an object is not a number. *)
Definition gt_zero (v : value) : Result bool :=
  match v with
  | VUndefined | VNull => Ok false
  | VBool b => Ok b
  | VNum n => Ok (num_gt_zero n)
  | VStr s => Ok (str_gt_zero s)
  | VArr _ => rbind (to_string v) (fun s => Ok (str_gt_zero s))
  | VObj _ => rbind (to_string v) (fun _ => Ok false)
  end.

(** [v.map(f)]: only an array has a callable [map]. *)
Definition array_map {B} (v : value) (f : value -> Result B) : Result (list B) :=
  match v with
  | VArr items => map_result f items
  | _ => Throw (mkError (fault_message (NotAFunction "map")))
  end.

(** ** From the body to the value

    The syntax of a JSON body, with the members of an object in the order the
    backend wrote them, and the value [JSON.parse] builds from it. *)
Inductive doc : Type :=
| DNull
| DBool (b : bool)
| DNum (n : num)
| DStr (s : string)
| DArr (items : list doc)
| DObj (members : list (string * doc)).

(** Defining a property: a new key goes last, a repeated key keeps its place
    and takes the new value. *)
Fixpoint define (fields : list (string * value)) (k : string) (v : value)
  : list (string * value) :=
  match fields with
  | [] => [(k, v)]
  | (k', v') :: rest =>
      if (k' =? k)%string then (k', v) :: rest else (k', v') :: define rest k v
  end.

Definition define_all (members : list (string * value)) : list (string * value) :=
  fold_left (fun fields kv => define fields (fst kv) (snd kv)) members [].

(** A key is among those of a list. *)
Definition has_key (ks : list string) (k : string) : bool :=
  existsb (fun k' => (k' =? k)%string) ks.

(** The order of array-index properties. *)
Definition by_index (x y : N * (string * value)) : Prop := (fst x <= fst y)%N.

(** Insertion of an array-index key among those already in ascending order. *)
Fixpoint insert_index (i : N) (kv : string * value)
         (sorted : list (N * (string * value))) : list (N * (string * value)) :=
  match sorted with
  | [] => [(i, kv)]
  | (j, kv') :: rest =>
      if (i <=? j)%N then (i, kv) :: sorted else (j, kv') :: insert_index i kv rest
  end.

(** The array-index keys of a list of properties, in ascending order. *)
Fixpoint index_properties (fields : list (string * value))
  : list (N * (string * value)) :=
  match fields with
  | [] => []
  | kv :: rest =>
      match array_index (fst kv) with
      | Some i => insert_index i kv (index_properties rest)
      | None => index_properties rest
      end
  end.

Definition is_named (kv : string * value) : bool :=
  match array_index (fst kv) with Some _ => false | None => true end.

(** The order of the own properties of an object: the array-index keys in
    ascending order, then the other keys in the order they were defined. *)
Definition property_order (fields : list (string * value)) : list (string * value) :=
  (map snd (index_properties fields) ++ filter is_named fields)%list.

(** [JSON.parse], on the syntax tree. *)
Fixpoint parse (d : doc) : value :=
  match d with
  | DNull => VNull
  | DBool b => VBool b
  | DNum n => VNum n
  | DStr s => VStr s
  | DArr items => VArr (map parse items)
  | DObj members =>
      VObj (property_order
              (define_all (map (fun kd => (fst kd, parse (snd kd))) members)))
  end.

End Values.
(** ** The page, the network and the trace of effects *)

(** The places of the document the handler reads or writes. *)
Record Page : Type := mkPage {
  questionInput_value : string;
  output_style_display : string;
  answerEl_textContent : string;
  sqlEl_textContent : string;
  tableEl_innerHTML : string
}.

Inductive Slot : Type := OutputDisplay | AnswerText | SqlText | TableHTML.

Definition assign (slot : Slot) (s : string) (p : Page) : Page :=
  match slot with
  | OutputDisplay =>
      mkPage (questionInput_value p) s (answerEl_textContent p)
             (sqlEl_textContent p) (tableEl_innerHTML p)
  | AnswerText =>
      mkPage (questionInput_value p) (output_style_display p) s
             (sqlEl_textContent p) (tableEl_innerHTML p)
  | SqlText =>
      mkPage (questionInput_value p) (output_style_display p)
             (answerEl_textContent p) s (tableEl_innerHTML p)
  | TableHTML =>
      mkPage (questionInput_value p) (output_style_display p)
             (answerEl_textContent p) (sqlEl_textContent p) s
  end.

(** The arguments of a [fetch] call. *)
Record Request : Type := mkRequest {
  url : string;
  method : string;
  headers : list (string * string);
  body : string
}.

Inductive Event : Type :=
| EvAlert (msg : string)
| EvWrite (slot : Slot) (s : string)
| EvFetch (req : Request)
| EvConsoleError (e : JsError).

(** The page after a list of events, oldest first. *)
Fixpoint replay (evs : list Event) (p : Page) : Page :=
  match evs with
  | [] => p
  | EvWrite slot s :: rest => replay rest (assign slot s p)
  | _ :: rest => replay rest p
  end.

(** The page and everything that has happened so far, oldest first. *)
Record World : Type := mkWorld {
  page : Page;
  trace : list Event
}.

Definition emit (ev : Event) (w : World) : World :=
  mkWorld (page w) (trace w ++ [ev]).

(** ** The monad of the handler: state and exceptions *)

Definition M (A : Type) : Type := World -> Result A * World.

Definition ret {A} (a : A) : M A := fun w => (Ok a, w).

Definition bind {A B} (m : M A) (k : A -> M B) : M B :=
  fun w => match m w with
           | (Ok a, w') => k a w'
           | (Throw e, w') => (Throw e, w')
           end.

Definition throw {A} (e : JsError) : M A := fun w => (Throw e, w).

Definition lift {A} (r : Result A) : M A := fun w => (r, w).

(** [try { m } catch (err) { handler err }]. *)
Definition try_catch {A} (m : M A) (handler : JsError -> M A) : M A :=
  fun w => match m w with
           | (Ok a, w') => (Ok a, w')
           | (Throw e, w') => handler e w'
           end.

Declare Scope js_scope.
Delimit Scope js_scope with js.
Notation "x <- m ;; k" := (bind m (fun x => k))
  (at level 61, m at next level, right associativity) : js_scope.
Notation "m ;; k" := (bind m (fun _ => k))
  (at level 61, right associativity) : js_scope.

Definition alert (msg : string) : M unit :=
  fun w => (Ok tt, emit (EvAlert msg) w).

Definition write (slot : Slot) (s : string) : M unit :=
  fun w => (Ok tt, mkWorld (assign slot s (page w)) (trace w ++ [EvWrite slot s])).

Definition console_error (e : JsError) : M unit :=
  fun w => (Ok tt, emit (EvConsoleError e) w).

Definition read_question : M string :=
  fun w => (Ok (questionInput_value (page w)), w).

(** ** The request body *)

Definition hex_digit (n : nat) : string :=
  match String.get (n mod 16) "0123456789abcdef" with
  | Some c => String c EmptyString
  | None => EmptyString
  end.

(** One character inside a JSON string literal, as [JSON.stringify] writes it. *)
Definition json_escape (c : ascii) : string :=
  let n := nat_of_ascii c in
  if (n =? 34)%nat then "\" ++ dquote
  else if (n =? 92)%nat then "\\"
  else if (n =? 8)%nat then "\b"
  else if (n =? 9)%nat then "\t"
  else if (n =? 10)%nat then "\n"
  else if (n =? 12)%nat then "\f"
  else if (n =? 13)%nat then "\r"
  else if (n <? 32)%nat then "\u00" ++ hex_digit (n / 16) ++ hex_digit n
  else String c EmptyString.

Fixpoint json_escape_all (s : string) : string :=
  match s with
  | EmptyString => EmptyString
  | String c rest => json_escape c ++ json_escape_all rest
  end.

Definition json_quote (s : string) : string :=
  dquote ++ json_escape_all s ++ dquote.

(** [JSON.stringify({ question })]. *)
Definition stringify_question (question : string) : string :=
  "{" ++ json_quote "question" ++ ":" ++ json_quote question ++ "}".

(** ** The handler *)

Section Handler.
Context {engine : JsEngine}.
Local Open Scope js_scope.

(** What the handler reads of a response: [res.ok], [res.status], and the
    outcome of [await res.json()], which rejects when the body is not JSON. *)
Record Response : Type := mkResponse {
  ok : bool;
  status : nat;
  json : Result value
}.

(** The network answers a request with a response, or [fetch] rejects. *)
Definition Network : Type := Request -> Result Response.

(** [window.location.origin], fixed when the script is loaded. *)
Variable origin : string.

(** script.js, lines 70-72. *)
Definition API_URL : string :=
  if includes origin "onrender.com"
  then origin ++ "/ask"
  else "http://127.0.0.1:8000/ask".

(** The second argument of [fetch], lines 88-90 (and 22-24). *)
Definition ask_request (target question : string) : Request :=
  mkRequest target "POST" [("Content-Type", "application/json")]
            (stringify_question question).

(** [await fetch(target, {...})]. *)
Definition fetch (net : Network) (req : Request) : M Response :=
  fun w => (net req, emit (EvFetch req) w).

(** [await res.json()]. *)
Definition res_json (res : Response) : M value := lift (json res).

(** [errJson.detail || errJson.error]. *)
Definition detail_or_error (errJson : value) : Result value :=
  rbind (get errJson "detail") (fun detail =>
    if truthy detail then Ok detail else get errJson "error").

(** Lines 94-100: the message of an HTTP failure.  The inner [try] swallows
    whatever reading the body throws. *)
Definition http_error_message (res : Response) : M string :=
  let errMsg := "HTTP " ++ nat_to_string (status res) in
  try_catch
    (errJson <- res_json res ;;
     cond <- lift (if truthy errJson then detail_or_error errJson else Ok errJson) ;;
     if truthy cond
     then shown <- lift (detail_or_error errJson) ;;
          text <- lift (to_string shown) ;;
          ret (errMsg ++ " - " ++ text)
     else ret errMsg)
    (fun _ => ret errMsg).

(** The string a [textContent] setter stores: null and undefined clear the
    node, anything else is converted with [ToString], which may throw. *)
Definition text_of (v : value) : Result string :=
  match v with
  | VNull | VUndefined => Ok EmptyString
  | _ => to_string v
  end.

(** The template literal of lines 113-120. *)
Definition table_template (head rows : string) : string :=
  nl ++ "        <table>" ++
  nl ++ "          <thead><tr>" ++ head ++ "</tr></thead>" ++
  nl ++ "          <tbody>" ++
  nl ++ "            " ++ rows ++
  nl ++ "          </tbody>" ++
  nl ++ "        </table>" ++
  nl ++ "      ".

(** The callback of line 117: one row of the body, a cell per header. *)
Definition row_html (headers : list string) (r : value) : Result string :=
  rbind (map_result (fun h =>
           rbind (member_text r h) (fun cell => Ok ("<td>" ++ cell ++ "</td>")))
           headers)
        (fun cells => Ok ("<tr>" ++ join "" cells ++ "</tr>")).

(** Lines 112-120: [headers] and [tableHTML]. *)
Definition tableHTML (data : value) : Result string :=
  rbind (get data "rows") (fun rows =>
  rbind (get rows "0") (fun first =>
  rbind (object_keys first) (fun headers =>
  let head := join "" (map (fun h => "<th>" ++ h ++ "</th>") headers) in
  rbind (array_map rows (row_html headers)) (fun body_rows =>
  Ok (table_template head (join "" body_rows)))))).

(** [data.rows && data.rows.length > 0], as a condition. *)
Definition has_rows (data : value) : Result bool :=
  rbind (get data "rows") (fun rows =>
    if truthy rows
    then rbind (get rows "length") gt_zero
    else Ok false).

(** Lines 93-124 (and 27-56): what the handler does with a response. *)
Definition handle_response (res : Response) : M unit :=
  (if negb (ok res)
   then errMsg <- http_error_message res ;; throw (mkError errMsg)
   else ret tt) ;;
  data <- res_json res ;;
  answer <- lift (get data "answer") ;;
  answer_text <- lift (text_of (js_or answer (VStr "(no summary)"))) ;;
  write AnswerText answer_text ;;
  sql <- lift (get data "sql") ;;
  sql_text <- lift (text_of (js_or sql (VStr "(no SQL returned)"))) ;;
  write SqlText sql_text ;;
  nonempty_rows <- lift (has_rows data) ;;
  if nonempty_rows
  then html <- lift (tableHTML data) ;; write TableHTML html
  else write TableHTML "<p>No data found.</p>".

(** Lines 126-129 (and 57-60): the [catch] block. *)
Definition on_failure (err : JsError) : M unit :=
  console_error err ;;
  write AnswerText
    ("❌ " ++ (if nonempty (message err) then message err
              else "Error connecting to backend.")).

(** Lines 74-130: the click handler of the ask button. *)
Definition askBtn_click (net : Network) : M unit :=
  raw <- read_question ;;
  let question := trim raw in
  if negb (nonempty question)
  then alert "Please enter a question first!"
  else
    write OutputDisplay "block" ;;
    write AnswerText "⏳ Thinking..." ;;
    write SqlText "" ;;
    write TableHTML "" ;;
    try_catch
      (res <- fetch net (ask_request API_URL question) ;;
       handle_response res)
      on_failure.

(** Lines 8-61: the earlier handler in the file, which always posts to the
    local address and shows a plain pending text. *)
Definition askBtn_click_v1 (net : Network) : M unit :=
  raw <- read_question ;;
  let question := trim raw in
  if negb (nonempty question)
  then alert "Please enter a question first!"
  else
    write OutputDisplay "block" ;;
    write AnswerText "Thinking..." ;;
    write SqlText "" ;;
    write TableHTML "" ;;
    try_catch
      (res <- fetch net (ask_request "http://127.0.0.1:8000/ask" question) ;;
       handle_response res)
      on_failure.

(** One activation: the world after the handler has run to its end. *)
Definition activate (net : Network) (w : World) : World :=
  snd (askBtn_click net w).

Definition activate_v1 (net : Network) (w : World) : World :=
  snd (askBtn_click_v1 net w).

(** The events one activation adds to the trace. *)
Definition emitted (before after : World) : list Event :=
  skipn (List.length (trace before)) (trace after).

(** *** The two halves of an activation

    The handler is suspended while the request is under way, and other
    activations may run meanwhile.  It writes nothing between the call of
    [fetch] and the moment the body has been read, so it runs in two
    uninterrupted halves: [askBtn_click_begin], up to the call of [fetch],
    and [settle], from the outcome of the request to the end. *)

(** Lines 75-91, without the answer of the network. *)
Definition askBtn_click_begin : M unit :=
  raw <- read_question ;;
  let question := trim raw in
  if negb (nonempty question)
  then alert "Please enter a question first!"
  else
    write OutputDisplay "block" ;;
    write AnswerText "⏳ Thinking..." ;;
    write SqlText "" ;;
    write TableHTML "" ;;
    (fun w => (Ok tt, emit (EvFetch (ask_request API_URL question)) w)).

(** Lines 93-129 once [fetch] has settled with [outcome]: the rest of the
    [try] block, then the [catch] block if something was thrown. *)
Definition settle (outcome : Result Response) : M unit :=
  try_catch (bind (lift outcome) handle_response) on_failure.

End Handler.

(** ** A concrete engine

    Integers for numbers and one code unit per character: the engine's
    behaviour on ASCII text and on integral numbers, with the members of the
    standard prototypes of objects and arrays. *)

Definition is_space (c : ascii) : bool :=
  let n := nat_of_ascii c in
  ((n =? 9) || (n =? 10) || (n =? 11) || (n =? 12) || (n =? 13) || (n =? 32))%nat.

Fixpoint trim_start (s : string) : string :=
  match s with
  | EmptyString => EmptyString
  | String c rest => if is_space c then trim_start rest else s
  end.

Fixpoint trim_end (s : string) : string :=
  match s with
  | EmptyString => EmptyString
  | String c rest =>
      match trim_end rest with
      | EmptyString => if is_space c then EmptyString else String c EmptyString
      | kept => String c kept
      end
  end.

Definition ascii_trim (s : string) : string := trim_end (trim_start s).

Definition ascii_units (s : string) : list string :=
  map (fun c => String c EmptyString) (list_ascii_of_string s).

Definition decimal_gt_zero (s : string) : bool :=
  match NilEmpty.uint_of_string (ascii_trim s) with
  | Some u => (0 <? Nat.of_uint u)%nat
  | None => false
  end.

Definition ascii_fault_message (f : Fault) : string :=
  match f with
  | ReadOfNullish prop => "Cannot read properties of null (reading '" ++ prop ++ "')"
  | KeysOfNullish => "Cannot convert undefined or null to object"
  | NotAFunction prop => prop ++ " is not a function"
  | NotPrimitive => "Cannot convert object to primitive value"
  end.

Definition native_function (name : string) : string :=
  "function " ++ name ++ "() { [native code] }".

Definition object_members : list string :=
  ["hasOwnProperty"; "isPrototypeOf"; "propertyIsEnumerable"; "toLocaleString";
   "toString"; "valueOf"; "__defineGetter__"; "__defineSetter__";
   "__lookupGetter__"; "__lookupSetter__"].

Definition array_members : list string :=
  ["at"; "concat"; "entries"; "every"; "fill"; "filter"; "find"; "findIndex";
   "flat"; "flatMap"; "forEach"; "includes"; "indexOf"; "join"; "keys";
   "lastIndexOf"; "map"; "pop"; "push"; "reduce"; "reduceRight"; "reverse";
   "shift"; "slice"; "some"; "sort"; "splice"; "unshift"; "values"].

Definition is_in (k : string) (names : list string) : bool :=
  existsb (String.eqb k) names.

(** The members of the standard prototypes that matter for a header name. *)
Definition ascii_inherited_text (proto : Proto) (k : string) : option string :=
  if (k =? "constructor")%string
  then Some (native_function
               match proto with
               | ObjectProto => "Object"
               | ArrayProto => "Array"
               | StringProto => "String"
               | NumberProto => "Number"
               | BooleanProto => "Boolean"
               end)
  else if (k =? "__proto__")%string
  then Some match proto with
            | ObjectProto => "[object Object]"
            | ArrayProto | StringProto => ""
            | NumberProto => "0"
            | BooleanProto => "false"
            end
  else if is_in k object_members then Some (native_function k)
  else match proto with
       | ArrayProto =>
           if (k =? "length")%string then Some "0"
           else if is_in k array_members then Some (native_function k) else None
       | StringProto => if (k =? "length")%string then Some "0" else None
       | _ => None
       end.

Definition AsciiEngine : JsEngine.
Proof.
  refine {|
    num := Z;
    num_truthy := fun z => negb (z =? 0)%Z;
    num_to_string := fun z => NilZero.string_of_int (Z.to_int z);
    num_gt_zero := fun z => (0 <? z)%Z;
    num_of_nat := Z.of_nat;
    str_gt_zero := decimal_gt_zero;
    code_units := ascii_units;
    trim := ascii_trim;
    fault_message := ascii_fault_message;
    inherited_text := ascii_inherited_text;
    inherited_text_field := _;
    inherited_text_length := _;
    num_gt_zero_of_nat := _
  |}.
  - intros proto k Hin. simpl in Hin.
    destruct Hin as [<- | [<- | [<- | [<- | [<- | [<- | []]]]]]];
      destruct proto; reflexivity.
  - intros proto Harray Hstring.
    destruct proto; try reflexivity; [now destruct Harray | now destruct Hstring].
  - intros [|k]; [reflexivity|].
    apply Z.ltb_lt; lia.
Defined.

(** ** The vocabulary of the specification *)

Section Vocabulary.
Context {engine : JsEngine}.

(** The question the handler works with. *)
Definition question_of (w : World) : string :=
  trim (questionInput_value (page w)).

(** The message lines 94-100 compose: the status, and the text of the field
    that [detail || error] selects when there is one and it converts to
    text. *)
Definition http_message (res : Response) : string :=
  "HTTP " ++ nat_to_string (status res) ++
  match json res with
  | Ok errJson =>
      if truthy errJson
      then match detail_or_error errJson with
           | Ok shown =>
               if truthy shown
               then match to_string shown with
                    | Ok text => " - " ++ text
                    | Throw _ => ""
                    end
               else ""
           | Throw _ => ""
           end
      else ""
  | Throw _ => ""
  end.

(** The failures the specification names, with the error each one raises in
    the [try] block: no response at all, a response that is not [ok], and a
    body of an [ok] response that is not JSON. *)
Inductive Failure : Result Response -> JsError -> Prop :=
| TransportFailure (e : JsError) :
    Failure (Throw e) e
| StatusFailure (res : Response) :
    ok res = false -> Failure (Ok res) (mkError (http_message res))
| ParseFailure (res : Response) (e : JsError) :
    ok res = true -> json res = Throw e -> Failure (Ok res) e.

(** The best available message of an error: its own, or the generic one. *)
Definition best_message (e : JsError) : string :=
  if nonempty (message e) then message e else "Error connecting to backend.".

(** What line 128 puts in the answer region. *)
Definition failure_text (e : JsError) : string :=
  "❌ " ++ best_message e.

(** A record of the result set: its own properties. *)
Definition record : Type := list (string * value).

(** A value read from the payload: undefined when the key is absent. *)
Definition field (fields : record) (k : string) : value :=
  match own fields k with
  | Some v => v
  | None => VUndefined
  end.

(** The text of a cell of a record under a header (line 117). *)
Definition cell_text (r : record) (h : string) : Result string :=
  member_text (VObj r) h.

(** Lines 111-124 as a value: the markup for the table region, or the error
    thrown on the way. *)
Definition table_result (data : value) : Result string :=
  rbind (has_rows data) (fun nonempty_rows =>
    if nonempty_rows then tableHTML data else Ok "<p>No data found.</p>").

(** What lines 107 and 108 assign to a text region, when it converts. *)
Definition shown_text (fields : record) (k placeholder : string) : Result string :=
  text_of (js_or (field fields k) (VStr placeholder)).

(** The keys of a list in the order of their first occurrence. *)
Fixpoint first_occurrences (ks : list string) : list string :=
  match ks with
  | [] => []
  | k :: rest => k :: filter (fun k' => negb (k' =? k)%string) (first_occurrences rest)
  end.

Definition is_index_key (k : string) : bool :=
  match array_index k with Some _ => true | None => false end.

(** The index a key stands for (zero for a key that is no array index). *)
Definition index_of_key (k : string) : N :=
  match array_index k with Some i => i | None => 0%N end.

(** The HTTP failure message as the specification words it: the text of the
    [detail] or [error] field whenever one of them is present. *)
Definition presence_message (res : Response) : string :=
  "HTTP " ++ nat_to_string (status res) ++
  match json res with
  | Ok (VObj fields) =>
      match own fields "detail", own fields "error" with
      | Some d, _ => " - " ++ match to_string d with Ok t => t | Throw _ => "" end
      | None, Some e => " - " ++ match to_string e with Ok t => t | Throw _ => "" end
      | None, None => ""
      end
  | _ => ""
  end.

(** The page at the moment of the first request in a list of events. *)
Fixpoint page_at_fetch (evs : list Event) (p : Page) : option Page :=
  match evs with
  | [] => None
  | EvFetch _ :: _ => Some p
  | EvWrite slot s :: rest => page_at_fetch rest (assign slot s p)
  | _ :: rest => page_at_fetch rest p
  end.

(** The requests in a list of events. *)
Fixpoint requests (evs : list Event) : list Request :=
  match evs with
  | [] => []
  | EvFetch req :: rest => req :: requests rest
  | _ :: rest => requests rest
  end.

(** The console errors in a list of events. *)
Fixpoint console_errors (evs : list Event) : list JsError :=
  match evs with
  | [] => []
  | EvConsoleError e :: rest => e :: console_errors rest
  | _ :: rest => console_errors rest
  end.

(** The alerts in a list of events. *)
Fixpoint alerts (evs : list Event) : list string :=
  match evs with
  | [] => []
  | EvAlert msg :: rest => msg :: alerts rest
  | _ :: rest => alerts rest
  end.

(** A session without overlap: the user types a question and activates the
    handler, and every activation has run to its end before the next click,
    while the network answers as it likes each time. *)
Definition type_question (text : string) (w : World) : World :=
  mkWorld (mkPage text (output_style_display (page w))
                  (answerEl_textContent (page w)) (sqlEl_textContent (page w))
                  (tableEl_innerHTML (page w)))
          (trace w).

Fixpoint session (origin : string) (acts : list (string * Network)) (w : World) : World :=
  match acts with
  | [] => w
  | (text, net) :: rest =>
      session origin rest (activate origin net (type_question text w))
  end.

(** Activations that overlap: a click runs the handler up to the call of
    [fetch]; later, in any order, the request of some earlier click settles
    with an outcome and that activation runs to its end. *)
Inductive Step : Type :=
| Click (text : string)
| Settle (outcome : Result Response).

Fixpoint run (origin : string) (steps : list Step) (w : World) : World :=
  match steps with
  | [] => w
  | Click text :: rest =>
      run origin rest (snd (askBtn_click_begin origin (type_question text w)))
  | Settle outcome :: rest =>
      run origin rest (snd (settle outcome w))
  end.

(** The steps of a session without overlap: every click is followed at once
    by the settlement of its own request. *)
Definition steps_of (origin : string) (acts : list (string * Network)) : list Step :=
  flat_map (fun act =>
              [Click (fst act);
               Settle (snd act (ask_request (API_URL origin) (trim (fst act))))])
           acts.

(** The page while the request is under way. *)
Definition pending_page (placeholder : string) (p : Page) : Page :=
  mkPage (questionInput_value p) "block" placeholder "" "".

(** The events that put the page in that state, and the request. *)
Definition pending_writes (placeholder : string) : list Event :=
  [EvWrite OutputDisplay "block"; EvWrite AnswerText placeholder;
   EvWrite SqlText ""; EvWrite TableHTML ""].

Definition pending_events (placeholder : string) (req : Request) : list Event :=
  (pending_writes placeholder ++ [EvFetch req])%list.

(** The request an activation issues. *)
Definition request_of (origin : string) (w : World) : Request :=
  ask_request (API_URL origin) (question_of w).

(** An event is a request only if it goes to [target]. *)
Definition targets (target : string) (ev : Event) : Prop :=
  match ev with
  | EvFetch req => url req = target
  | _ => True
  end.

(** A computation only appends events that satisfy [P] to the trace, and
    changes the page as those events say. *)
Definition Emits (P : Event -> Prop) {A} (m : M A) : Prop :=
  forall w, exists evs,
    trace (snd (m w)) = (trace w ++ evs)%list /\
    page (snd (m w)) = replay evs (page w) /\
    Forall P evs.

(** The table of the specification for given header names and cell texts:
    a header row, then one row per record. *)
Definition table_of_texts (hs : list string) (grid : list (list string)) : string :=
  nl ++ "        <table>" ++
  nl ++ "          <thead><tr>" ++
  join "" (map (fun h => "<th>" ++ h ++ "</th>") hs) ++
  "</tr></thead>" ++
  nl ++ "          <tbody>" ++
  nl ++ "            " ++
  join "" (map (fun cells =>
             "<tr>" ++ join "" (map (fun c => "<td>" ++ c ++ "</td>") cells) ++ "</tr>")
           grid) ++
  nl ++ "          </tbody>" ++
  nl ++ "        </table>" ++
  nl ++ "      ".

(** What lines 121 and 123 put in the table region: the no-data paragraph or
    a table of some headers and cell texts. *)
Definition table_markup (t : string) : Prop :=
  t = "<p>No data found.</p>" \/ exists hs grid, t = table_of_texts hs grid.

(** The ways lines 93-129 can go, with the events they emit and the answer,
    query text and table they leave on a page that was pending: all three
    regions written; an error before line 107 has written; an error between
    the writes of lines 107 and 108; an error after line 108. *)
Inductive Ending : list Event -> string -> string -> string -> Prop :=
| Rendered (a s t : string) :
    table_markup t ->
    Ending [EvWrite AnswerText a; EvWrite SqlText s; EvWrite TableHTML t] a s t
| FailedEarly (e : JsError) :
    Ending [EvConsoleError e; EvWrite AnswerText (failure_text e)]
           (failure_text e) "" ""
| FailedBetween (a : string) (e : JsError) :
    Ending [EvWrite AnswerText a;
            EvConsoleError e; EvWrite AnswerText (failure_text e)]
           (failure_text e) "" ""
| FailedLate (a s : string) (e : JsError) :
    Ending [EvWrite AnswerText a; EvWrite SqlText s;
            EvConsoleError e; EvWrite AnswerText (failure_text e)]
           (failure_text e) s "".

(** A body that is JSON but neither null nor an object. *)
Definition is_scalar_or_array (v : value) : bool :=
  match v with
  | VBool _ | VNum _ | VStr _ | VArr _ => true
  | _ => false
  end.

(** A [rows] value for which line 111 is false without looking at a length
    or at items: falsy, or a boolean or a number. *)
Definition has_no_length (v : value) : bool :=
  negb (truthy v) ||
  match v with
  | VBool _ | VNum _ => true
  | _ => false
  end.

(** Two records show the same under every header of [hs]. *)
Definition agree_on (hs : list string) (r r' : record) : Prop :=
  forall h, In h hs -> own r h = own r' h.

End Vocabulary.

(** ** Sample pages, networks and responses *)

Module Sample.

Definition render_origin : string := "https://crop-dcdl.onrender.com".
Definition local_origin : string := "http://127.0.0.1:5500".

(** A page that still shows the result of an earlier question. *)
Definition world (text : string) : World :=
  mkWorld (mkPage text "none" "old answer" "old sql" "<p>old table</p>") [].

Definition answers (res : Response (engine := AsciiEngine)) : Network :=
  fun _ => Ok res.

Definition unreachable (msg : string) : Network (engine := AsciiEngine) :=
  fun _ => Throw (mkError msg).

Definition success (data : value (engine := AsciiEngine)) : Response :=
  mkResponse true 200 (Ok data).

Definition server_error (data : value (engine := AsciiEngine)) : Response :=
  mkResponse false 500 (Ok data).

Definition not_json : Response (engine := AsciiEngine) :=
  mkResponse true 200 (Throw (mkError "Unexpected token < in JSON at position 0")).

Definition full_payload : record (engine := AsciiEngine) :=
  [("answer", VStr "A"); ("sql", VStr "S");
   ("rows", VArr [VObj [("x", VStr "1"); ("y", VStr "2")]])].

Definition blank_payload : record (engine := AsciiEngine) :=
  [("answer", VStr ""); ("sql", VStr ""); ("rows", VArr [])].

Definition rice : record (engine := AsciiEngine) :=
  [("crop", VStr "rice"); ("yield", @VNum AsciiEngine 42%Z)].

Definition wheat : record (engine := AsciiEngine) :=
  [("crop", VStr "wheat")].

Definition ragged_payload : record (engine := AsciiEngine) :=
  [("rows", VArr [VObj rice; VObj wheat])].

End Sample.

(** * Properties *)

(** ** Text *)

Lemma prefix_app (sub s : string) :
  prefix sub s = true <-> exists post, s = sub ++ post.
Proof.
  revert s; induction sub as [|c sub IH]; intros s; simpl.
  - split; [intros _; exists s; reflexivity | now destruct s].
  - destruct s as [|d s]; simpl.
    + split; [discriminate | intros [post H]; discriminate].
    + destruct (ascii_dec c d) as [->|Hcd].
      * rewrite IH. split; intros [post H]; exists post.
        -- now rewrite H.
        -- now injection H.
      * split; [discriminate|].
        intros [post H]. injection H as H1 _. now elim Hcd.
Qed.

Lemma append_assoc (a b c : string) : (a ++ b) ++ c = a ++ (b ++ c).
Proof. induction a as [|x a IH]; simpl; [reflexivity | now rewrite IH]. Qed.

Lemma includes_unfold (s sub : string) :
  includes s sub =
  if prefix sub s then true
  else match s with
       | EmptyString => false
       | String _ rest => includes rest sub
       end.
Proof. destruct s; reflexivity. Qed.

Lemma append_nil_r (s : string) : s ++ "" = s.
Proof. induction s as [|x s IH]; simpl; [reflexivity | now rewrite IH]. Qed.

(** [includes] finds exactly the strings that have [sub] as a factor. *)
Lemma includes_factor (s sub : string) :
  includes s sub = true <-> exists pre post, s = pre ++ sub ++ post.
Proof.
  induction s as [|c s IH]; rewrite includes_unfold.
  - destruct (prefix sub "") eqn:Hp.
    + split; [intros _|reflexivity].
      apply prefix_app in Hp as [post Hp]. exists "", post. exact Hp.
    + split; [discriminate|].
      intros (pre & post & H). destruct pre; simpl in H.
      * assert (prefix sub "" = true) by (apply prefix_app; now exists post).
        congruence.
      * discriminate.
  - destruct (prefix sub (String c s)) eqn:Hp.
    + split; [intros _|reflexivity].
      apply prefix_app in Hp as [post Hp]. exists "", post. exact Hp.
    + rewrite IH. split.
      * intros (pre & post & H). exists (String c pre), post. simpl. now rewrite H.
      * intros (pre & post & H). destruct pre as [|d pre]; simpl in H.
        -- assert (prefix sub (String c s) = true)
             by (apply prefix_app; now exists post).
           congruence.
        -- injection H as _ H. now exists pre, post.
Qed.

Lemma nonempty_false (s : string) : nonempty s = false <-> s = "".
Proof. destruct s; simpl; split; congruence. Qed.

Lemma nonempty_true (s : string) : nonempty s = true <-> s <> "".
Proof. destruct s; simpl; split; congruence. Qed.

(** ** The trace *)

Lemma emitted_app (w : World) (p : Page) (evs : list Event) :
  emitted w (mkWorld p (trace w ++ evs)) = evs.
Proof.
  unfold emitted; simpl.
  rewrite skipn_app, skipn_all, Nat.sub_diag. reflexivity.
Qed.

Lemma replay_app (evs1 evs2 : list Event) (p : Page) :
  replay (evs1 ++ evs2) p = replay evs2 (replay evs1 p).
Proof.
  revert p; induction evs1 as [|ev evs1 IH]; intros p; simpl; [reflexivity|].
  destruct ev; apply IH.
Qed.

Lemma requests_app (evs1 evs2 : list Event) :
  requests (evs1 ++ evs2) = (requests evs1 ++ requests evs2)%list.
Proof.
  induction evs1 as [|ev evs1 IH]; simpl; [reflexivity|].
  destruct ev; simpl; now rewrite IH.
Qed.

(** ** The effects of a computation, by its structure *)

Section Effects.
Context {engine : JsEngine}.
Variable P : Event -> Prop.

Lemma Emits_silent {A} (m : M A) :
  (forall w, snd (m w) = w) -> Emits P m.
Proof.
  intros H w. exists []. rewrite H, app_nil_r. auto.
Qed.

Lemma Emits_ret {A} (a : A) : Emits P (ret a).
Proof. now apply Emits_silent. Qed.

Lemma Emits_throw {A} (e : JsError) : Emits P (@throw A e).
Proof. now apply Emits_silent. Qed.

Lemma Emits_lift {A} (r : Result A) : Emits P (lift r).
Proof. now apply Emits_silent. Qed.

Lemma Emits_read_question : Emits P read_question.
Proof. now apply Emits_silent. Qed.

Lemma Emits_res_json (res : Response) : Emits P (res_json res).
Proof. now apply Emits_silent. Qed.

Lemma Emits_one {A} (m : M A) (ev : Event) :
  P ev ->
  (forall w, snd (m w) = mkWorld (replay [ev] (page w)) (trace w ++ [ev])) ->
  Emits P m.
Proof.
  intros HP H w. exists [ev]. rewrite H. simpl. auto.
Qed.

Lemma Emits_alert (msg : string) : P (EvAlert msg) -> Emits P (alert msg).
Proof. intros HP. apply Emits_one with (ev := EvAlert msg); [exact HP|]. now intros []. Qed.

Lemma Emits_console_error (e : JsError) :
  P (EvConsoleError e) -> Emits P (console_error e).
Proof.
  intros HP. apply Emits_one with (ev := EvConsoleError e); [exact HP|]. now intros [].
Qed.

Lemma Emits_write (slot : Slot) (s : string) :
  P (EvWrite slot s) -> Emits P (write slot s).
Proof.
  intros HP. apply Emits_one with (ev := EvWrite slot s); [exact HP|]. now intros [].
Qed.

Lemma Emits_fetch (net : Network) (req : Request) :
  P (EvFetch req) -> Emits P (fetch net req).
Proof.
  intros HP. apply Emits_one with (ev := EvFetch req); [exact HP|]. now intros [].
Qed.

Lemma Emits_then {A B} (m : M A) (after : Result A -> M B) :
  Emits P m ->
  (forall r, Emits P (after r)) ->
  Emits P (fun w => after (fst (m w)) (snd (m w))).
Proof.
  intros Hm Hafter w.
  destruct (Hm w) as (evs1 & Ht1 & Hp1 & HP1).
  destruct (Hafter (fst (m w)) (snd (m w))) as (evs2 & Ht2 & Hp2 & HP2).
  exists (evs1 ++ evs2)%list. simpl.
  rewrite Ht2, Ht1, Hp2, Hp1, replay_app, app_assoc.
  repeat split. now apply Forall_app.
Qed.

Lemma Emits_ext {A} (m m' : M A) :
  (forall w, m w = m' w) -> Emits P m' -> Emits P m.
Proof. intros E H w. rewrite E. apply H. Qed.

Lemma Emits_bind {A B} (m : M A) (k : A -> M B) :
  Emits P m -> (forall a, Emits P (k a)) -> Emits P (bind m k).
Proof.
  intros Hm Hk.
  apply Emits_ext with
    (m' := fun w => (fun r => match r with Ok a => k a | Throw e => throw e end)
                      (fst (m w)) (snd (m w))).
  - intros w. unfold bind. now destruct (m w) as [[a|e] w'].
  - apply (Emits_then (fun r => match r with Ok a => k a | Throw e => throw e end)
             Hm).
    intros [a|e]; [apply Hk | apply Emits_throw].
Qed.

Lemma Emits_try_catch {A} (m : M A) (handler : JsError -> M A) :
  Emits P m -> (forall e, Emits P (handler e)) -> Emits P (try_catch m handler).
Proof.
  intros Hm Hh.
  apply Emits_ext with
    (m' := fun w => (fun r => match r with Ok a => ret a | Throw e => handler e end)
                      (fst (m w)) (snd (m w))).
  - intros w. unfold try_catch. now destruct (m w) as [[a|e] w'].
  - apply (Emits_then (fun r => match r with Ok a => ret a | Throw e => handler e end)
             Hm).
    intros [a|e]; [apply Emits_ret | apply Hh].
Qed.

End Effects.

Ltac emits :=
  repeat first
    [ apply Emits_ret | apply Emits_throw | apply Emits_lift
    | apply Emits_read_question | apply Emits_res_json
    | apply Emits_alert; exact I
    | apply Emits_console_error; exact I
    | apply Emits_write; exact I
    | apply Emits_fetch; reflexivity
    | apply Emits_bind; [|intros ?]
    | apply Emits_try_catch; [|intros ?]
    | match goal with
      | |- Emits _ (if ?b then _ else _) => destruct b
      end ].

Section Targets.
Context {engine : JsEngine}.

Lemma handle_response_emits (target : string) (res : Response) :
  Emits (targets target) (handle_response res).
Proof. unfold handle_response, http_error_message. emits. Qed.

Lemma on_failure_emits (target : string) (err : JsError) :
  Emits (targets target) (on_failure err).
Proof. unfold on_failure. emits. Qed.

Lemma askBtn_click_emits (origin : string) (net : Network) :
  Emits (targets (API_URL origin)) (askBtn_click origin net).
Proof.
  unfold askBtn_click. emits.
Qed.

Lemma askBtn_click_v1_emits (net : Network) :
  Emits (targets "http://127.0.0.1:8000/ask") (askBtn_click_v1 net).
Proof.
  unfold askBtn_click_v1. emits.
Qed.

(** The page always is what the trace says. *)
Lemma activate_replay (origin : string) (net : Network) (w : World) :
  page (activate origin net w) =
  replay (emitted w (activate origin net w)) (page w).
Proof.
  destruct (askBtn_click_emits origin net w) as (evs & Ht & Hp & _).
  unfold activate. rewrite Hp. f_equal.
  unfold emitted. rewrite Ht, skipn_app, skipn_all, Nat.sub_diag. reflexivity.
Qed.

Lemma session_emits (origin : string) (acts : list (string * Network)) (w : World) :
  exists evs,
    trace (session origin acts w) = (trace w ++ evs)%list /\
    Forall (targets (API_URL origin)) evs.
Proof.
  revert w; induction acts as [|[text net] acts IH]; intros w; simpl.
  - exists []. now rewrite app_nil_r.
  - destruct (IH (activate origin net (type_question text w))) as (evs2 & Ht2 & HP2).
    destruct (askBtn_click_emits origin net (type_question text w))
      as (evs1 & Ht1 & _ & HP1).
    exists (evs1 ++ evs2)%list. split; [|now apply Forall_app].
    rewrite Ht2. unfold activate. rewrite Ht1. simpl. now rewrite app_assoc.
Qed.

Lemma requests_targets (target : string) (evs : list Event) :
  Forall (targets target) evs -> Forall (fun req => url req = target) (requests evs).
Proof.
  induction 1 as [|ev evs Hev _ IH]; simpl; [constructor|].
  destruct ev; simpl in *; auto.
Qed.

End Targets.

(** ** The handler, case by case *)

Section Cases.
Context {engine : JsEngine}.
Variable origin : string.
Variable net : Network.

Lemma world_eq (p p' : Page) (t t' : list Event) :
  p = p' -> t = t' -> mkWorld p t = mkWorld p' t'.
Proof. now intros -> ->. Qed.

(** Lines 76-79. *)
Lemma askBtn_click_empty (w : World) :
  question_of w = "" ->
  askBtn_click origin net w = (Ok tt, emit (EvAlert "Please enter a question first!") w).
Proof.
  intros H. unfold askBtn_click, bind, read_question, question_of in *.
  now rewrite H.
Qed.

Lemma askBtn_click_v1_empty (w : World) :
  question_of w = "" ->
  askBtn_click_v1 net w = (Ok tt, emit (EvAlert "Please enter a question first!") w).
Proof.
  intros H. unfold askBtn_click_v1, bind, read_question, question_of in *.
  now rewrite H.
Qed.

(** Lines 94-100 never throw and leave the world alone. *)
Lemma http_error_message_pure (res : Response) (w : World) :
  http_error_message res w = (Ok (http_message res), w).
Proof.
  unfold http_error_message, http_message, try_catch, bind, res_json, lift, ret.
  destruct (json res) as [errJson|e]; [|now rewrite append_nil_r].
  destruct (truthy errJson) eqn:Ht.
  - destruct (detail_or_error errJson) as [shown|e]; [|now rewrite append_nil_r].
    destruct (truthy shown); [|now rewrite append_nil_r].
    destruct (to_string shown) as [text|e]; [reflexivity | now rewrite append_nil_r].
  - rewrite Ht. now rewrite append_nil_r.
Qed.

(** Lines 81-91: with a question, the handler prepares the page and runs the
    [try] block from there. *)
Lemma askBtn_click_attempt (w : World) :
  nonempty (question_of w) = true ->
  askBtn_click origin net w =
  try_catch
    (bind (fetch net (ask_request (API_URL origin) (question_of w))) handle_response)
    on_failure
    (mkWorld (pending_page "⏳ Thinking..." (page w))
             (trace w ++ pending_writes "⏳ Thinking...")).
Proof.
  intros H. unfold askBtn_click, question_of in *.
  unfold bind at 1. unfold read_question. rewrite H. cbn [negb]. cbv iota.
  unfold bind at 1 2 3 4. unfold write. simpl.
  rewrite <- !app_assoc. reflexivity.
Qed.

(** A failed exchange leaves the [try] block with its error right after the
    request, before any write of lines 107-124. *)
Lemma attempt_fails (req : Request) (err : JsError) (w : World) :
  Failure (net req) err ->
  bind (fetch net req) handle_response w = (Throw err, emit (EvFetch req) w).
Proof.
  intros H. unfold bind at 1. unfold fetch.
  remember (net req) as outcome eqn:Hout.
  destruct H as [e | res Hok | res e Hok Hjson].
  - reflexivity.
  - unfold handle_response. unfold bind at 1. rewrite Hok. cbn [negb]. cbv iota.
    unfold bind at 1. cbv beta. rewrite http_error_message_pure. reflexivity.
  - unfold handle_response. unfold bind at 1. rewrite Hok. cbn [negb]. cbv iota.
    unfold ret. unfold bind at 1. unfold res_json, lift. rewrite Hjson. reflexivity.
Qed.

(** Lines 126-129 after a failed exchange. *)
Lemma askBtn_click_failed (w : World) (err : JsError) :
  nonempty (question_of w) = true ->
  Failure (net (ask_request (API_URL origin) (question_of w))) err ->
  askBtn_click origin net w =
  (Ok tt,
   mkWorld (assign AnswerText ("❌ " ++ best_message err)
              (pending_page "⏳ Thinking..." (page w)))
           (trace w ++
            pending_events "⏳ Thinking..."
              (ask_request (API_URL origin) (question_of w)) ++
            [EvConsoleError err; EvWrite AnswerText ("❌ " ++ best_message err)])).
Proof.
  intros Hq Hfail. rewrite (askBtn_click_attempt w Hq).
  unfold try_catch. rewrite (attempt_fails _ Hfail).
  unfold on_failure, bind, console_error, write, emit, pending_events. simpl.
  f_equal. apply world_eq; [reflexivity|].
  rewrite <- !app_assoc. reflexivity.
Qed.

Lemma get_field (fields : record) (k : string) :
  get (VObj fields) k = Ok (field fields k).
Proof. unfold get, field. cbn [own_property]. now destruct (own fields k). Qed.

(** Whatever the network does, an activation with a question first emits the
    four writes of lines 81-84 and the request. *)
Lemma askBtn_click_prefix (w : World) :
  nonempty (question_of w) = true ->
  exists rest,
    trace (activate origin net w) =
    (trace w ++
     pending_events "⏳ Thinking..." (ask_request (API_URL origin) (question_of w)) ++
     rest)%list.
Proof.
  intros Hq. unfold activate. rewrite (askBtn_click_attempt w Hq).
  set (req := ask_request (API_URL origin) (question_of w)).
  set (w1 := mkWorld _ _).
  assert (Hw1 : trace (emit (EvFetch req) w1) =
                (trace w ++ pending_events "⏳ Thinking..." req)%list).
  { unfold emit, w1, pending_events. simpl. now rewrite <- !app_assoc. }
  unfold try_catch, bind at 1, fetch.
  destruct (net req) as [res|e].
  - destruct (handle_response_emits "" res (emit (EvFetch req) w1))
      as (evs & Ht & _ & _).
    destruct (handle_response res (emit (EvFetch req) w1)) as [[[]|e] w2];
      cbn [snd] in Ht.
    + exists evs. cbn [snd]. now rewrite Ht, Hw1, <- app_assoc.
    + destruct (on_failure_emits "" e w2) as (evs' & Ht' & _ & _).
      exists (evs ++ evs')%list. rewrite Ht', Ht, Hw1.
      now rewrite <- !app_assoc.
  - destruct (on_failure_emits "" e (emit (EvFetch req) w1)) as (evs' & Ht' & _ & _).
    exists evs'. rewrite Ht', Hw1. now rewrite <- app_assoc.
Qed.

Lemma page_at_fetch_pending (placeholder : string) (req : Request)
      (rest : list Event) (p : Page) :
  page_at_fetch (pending_events placeholder req ++ rest) p =
  Some (pending_page placeholder p).
Proof. reflexivity. Qed.

End Cases.

(** ** The table of a result set *)

Section Grid.
Context {engine : JsEngine}.

Lemma map_result_fuse {A B C} (f : A -> Result B) (g : B -> C) (l : list A) :
  map_result (fun x => rbind (f x) (fun y => Ok (g y))) l =
  rbind (map_result f l) (fun ys => Ok (map g ys)).
Proof.
  induction l as [|x l IH]; [reflexivity|].
  cbn [map_result]. rewrite IH.
  destruct (f x) as [y|e]; [|reflexivity]. cbn [rbind].
  now destruct (map_result f l).
Qed.

Lemma map_result_map {A B C} (f : B -> Result C) (g : A -> B) (l : list A) :
  map_result f (map g l) = map_result (fun x => f (g x)) l.
Proof.
  induction l as [|x l IH]; [reflexivity|]. cbn [map map_result]. now rewrite IH.
Qed.

Lemma map_result_ext_in {A B} (f g : A -> Result B) (l : list A) :
  (forall x, In x l -> f x = g x) -> map_result f l = map_result g l.
Proof.
  induction l as [|x l IH]; intros H; [reflexivity|].
  cbn [map_result]. rewrite (H x (or_introl eq_refl)), IH; [reflexivity|].
  intros y Hy. apply H. now right.
Qed.

(** When [map_result] returns, every item was mapped. *)
Lemma map_result_In {A B} (f : A -> Result B) (l : list A) (ys : list B) (x : A) :
  map_result f l = Ok ys -> In x l -> exists y, f x = Ok y /\ In y ys.
Proof.
  revert ys; induction l as [|x' l IH]; intros ys H Hin; [destruct Hin|].
  cbn [map_result] in H.
  destruct (f x') as [y'|] eqn:Hfx; [|discriminate]. cbn [rbind] in H.
  destruct (map_result f l) as [ys'|]; [|discriminate]. cbn [rbind] in H.
  injection H as <-. destruct Hin as [<- | Hin].
  - exists y'. split; [exact Hfx | now left].
  - destruct (IH ys' eq_refl Hin) as (y & Hy & Hiny). exists y. split; [exact Hy | now right].
Qed.

(** Line 117 on one row: the cells, then the markup around them. *)
(** On the names the handler writes out, a read by [get] is the general
    property read: nothing is inherited under such a name. *)
Lemma get_member_text (v : value) (k : string) :
  In k ["detail"; "error"; "answer"; "sql"; "rows"; "length"; "0"] ->
  member_text v k = rbind (get v k) to_string.
Proof.
  intros Hin. unfold member_text, get.
  destruct (proto_of v) as [proto|] eqn:Hproto;
    [|destruct v; try discriminate; reflexivity].
  assert (Hown : own_property v k = None -> inherited_text proto k = None).
  { intros Hnone. simpl in Hin.
    destruct Hin as [<- | [<- | [<- | [<- | [<- | [<- | [<- | []]]]]]]];
      try (apply inherited_text_field; simpl; tauto).
    apply inherited_text_length; intros ->;
      destruct v; try discriminate; cbn [own_property String.eqb Ascii.eqb Bool.eqb] in Hnone;
      discriminate. }
  destruct v; try discriminate;
    (destruct (own_property _ k) eqn:Hk;
     [reflexivity | now rewrite (Hown eq_refl)]).
Qed.

Lemma row_html_texts (hs : list string) (r : value) :
  row_html hs r =
  rbind (map_result (member_text r) hs) (fun texts =>
    Ok ("<tr>" ++ join "" (map (fun c => "<td>" ++ c ++ "</td>") texts) ++ "</tr>")).
Proof.
  unfold row_html. rewrite map_result_fuse.
  now destruct (map_result (member_text r) hs).
Qed.

(** Line 121 only ever assigns a table of lines 113-120: a header cell per
    key, and a row of cell texts per item. *)
Lemma tableHTML_texts (data : value) (html : string) :
  tableHTML data = Ok html -> exists hs grid, html = table_of_texts hs grid.
Proof.
  unfold tableHTML. intros H.
  destruct (get data "rows") as [rows|]; [|discriminate]. cbn [rbind] in H.
  destruct (get rows "0") as [first|]; [|discriminate]. cbn [rbind] in H.
  destruct (object_keys first) as [hs|]; [|discriminate]. cbn [rbind] in H.
  destruct rows as [| | | | |items|]; try discriminate. unfold array_map in H.
  assert (Hrows : map_result (row_html hs) items =
                  rbind (map_result (fun r => map_result (member_text r) hs) items)
                    (fun grid => Ok (map (fun cells =>
                       "<tr>" ++ join "" (map (fun c => "<td>" ++ c ++ "</td>") cells) ++
                       "</tr>") grid))).
  { rewrite <- map_result_fuse. apply map_result_ext_in.
    intros r _. apply row_html_texts. }
  rewrite Hrows in H.
  destruct (map_result (fun r => map_result (member_text r) hs) items)
    as [grid|]; [|discriminate].
  cbn [rbind] in H. injection H as <-. now exists hs, grid.
Qed.

(** Lines 112-120 on a sequence of records: the texts of the cells, row by
    row, then the table around them; the first text that does not convert
    ends the whole. *)
Lemma tableHTML_records (fields first : record) (others : list record) :
  own fields "rows" = Some (VArr (map VObj (first :: others))) ->
  tableHTML (VObj fields) =
  rbind (map_result (fun r => map_result (cell_text r) (map fst first))
                    (first :: others))
        (fun grid => Ok (table_of_texts (map fst first) grid)).
Proof.
  intros Hrows. unfold tableHTML.
  rewrite get_field. unfold field. rewrite Hrows.
  cbn [rbind map get own_property]. change (parse_index "0") with (Some 0).
  cbn [String.eqb Ascii.eqb Bool.eqb nth_error rbind object_keys].
  unfold array_map.
  change (VObj first :: map VObj others) with (map VObj (first :: others)).
  rewrite map_result_map.
  assert (Hext :
    map_result (fun r => row_html (map fst first) (VObj r)) (first :: others) =
    map_result
      (fun r => rbind (map_result (cell_text r) (map fst first))
                 (fun texts => Ok ("<tr>" ++
                    join "" (map (fun c => "<td>" ++ c ++ "</td>") texts) ++ "</tr>")))
      (first :: others)).
  { apply map_result_ext_in. intros r _. unfold cell_text. apply row_html_texts. }
  rewrite Hext, map_result_fuse.
  destruct (map_result (fun r => map_result (cell_text r) (map fst first))
                       (first :: others)); reflexivity.
Qed.

(** Line 111 on a record. *)
Lemma has_rows_array (fields : record) (items : list value) :
  own fields "rows" = Some (VArr items) ->
  has_rows (VObj fields) =
  Ok (match items with [] => false | _ :: _ => true end).
Proof.
  intros Hrows. unfold has_rows. rewrite get_field. unfold field. rewrite Hrows.
  cbn [rbind truthy get own_property String.eqb Ascii.eqb Bool.eqb gt_zero].
  rewrite num_gt_zero_of_nat. now destruct items.
Qed.

Lemma has_rows_absent (fields : record) :
  own fields "rows" = None -> has_rows (VObj fields) = Ok false.
Proof.
  intros Hrows. unfold has_rows. rewrite get_field. unfold field.
  now rewrite Hrows.
Qed.

Lemma table_result_records (fields first : record) (others : list record) :
  own fields "rows" = Some (VArr (map VObj (first :: others))) ->
  table_result (VObj fields) =
  rbind (map_result (fun r => map_result (cell_text r) (map fst first))
                    (first :: others))
        (fun grid => Ok (table_of_texts (map fst first) grid)).
Proof.
  intros Hrows. unfold table_result.
  rewrite has_rows_array with (items := map VObj (first :: others)) by exact Hrows.
  cbn [map rbind]. now apply tableHTML_records.
Qed.

Lemma table_result_no_rows (fields : record) :
  own fields "rows" = Some (VArr []) \/ own fields "rows" = None ->
  table_result (VObj fields) = Ok "<p>No data found.</p>".
Proof.
  intros [Hrows|Hrows]; unfold table_result.
  - now rewrite has_rows_array with (items := []).
  - now rewrite has_rows_absent.
Qed.

End Grid.

(** ** Lines 93-129, path by path *)

Section Paths.
Context {engine : JsEngine}.

(** A property read throws only on null and undefined, whatever the key. *)
Lemma get_ok_any (v x : value) (k k' : string) :
  get v k = Ok x -> exists y, get v k' = Ok y.
Proof.
  destruct v; cbn [get]; try discriminate; intros _;
    destruct (own_property _ k'); eauto.
Qed.

(** Lines 104-106 when the body can be read and the answer converts. *)
Lemma handle_response_answer (res : Response) (data answer : value) (a : string)
      (w : World) :
  ok res = true ->
  json res = Ok data ->
  get data "answer" = Ok answer ->
  text_of (js_or answer (VStr "(no summary)")) = Ok a ->
  handle_response res w =
  bind (lift (get data "sql")) (fun sql =>
    bind (lift (text_of (js_or sql (VStr "(no SQL returned)")))) (fun sql_text =>
    bind (write SqlText sql_text) (fun _ =>
    bind (lift (has_rows data)) (fun nonempty_rows =>
      if nonempty_rows
      then bind (lift (tableHTML data)) (fun html => write TableHTML html)
      else write TableHTML "<p>No data found.</p>"))))
    (mkWorld (assign AnswerText a (page w)) (trace w ++ [EvWrite AnswerText a])).
Proof.
  intros Hok Hjson Hanswer Ha. unfold handle_response.
  unfold bind at 1. rewrite Hok. cbn [negb]. cbv iota. unfold ret at 1.
  unfold bind at 1. unfold res_json, lift at 1. rewrite Hjson.
  unfold bind at 1. unfold lift at 1. rewrite Hanswer.
  unfold bind at 1. unfold lift at 1. rewrite Ha.
  unfold bind at 1. unfold write at 1. reflexivity.
Qed.

(** Lines 104-111 when both texts convert: two writes, then line 111. *)
Lemma handle_response_after_writes (res : Response) (data answer sql : value)
      (a s : string) (w : World) :
  ok res = true ->
  json res = Ok data ->
  get data "answer" = Ok answer ->
  text_of (js_or answer (VStr "(no summary)")) = Ok a ->
  get data "sql" = Ok sql ->
  text_of (js_or sql (VStr "(no SQL returned)")) = Ok s ->
  handle_response res w =
  bind (lift (has_rows data)) (fun nonempty_rows =>
    if nonempty_rows
    then bind (lift (tableHTML data)) (fun html => write TableHTML html)
    else write TableHTML "<p>No data found.</p>")
    (mkWorld (assign SqlText s (assign AnswerText a (page w)))
             (trace w ++ [EvWrite AnswerText a; EvWrite SqlText s])).
Proof.
  intros Hok Hjson Hanswer Ha Hsql Hs.
  rewrite handle_response_answer with (data := data) (answer := answer) (a := a)
    by assumption.
  unfold bind at 1. unfold lift at 1. rewrite Hsql.
  unfold bind at 1. unfold lift at 1. rewrite Hs.
  unfold bind at 1. unfold write at 1. cbn [page trace].
  rewrite <- app_assoc. reflexivity.
Qed.

(** Lines 93-124: three writes and a normal end, or an error before the
    first write, between the first and the second, or after the second. *)
Lemma handle_response_paths (res : Response) :
  (exists a s t,
     table_markup t /\
     forall w, handle_response res w =
       (Ok tt,
        mkWorld (assign TableHTML t (assign SqlText s (assign AnswerText a (page w))))
                (trace w ++ [EvWrite AnswerText a; EvWrite SqlText s;
                             EvWrite TableHTML t]))) \/
  (exists e, forall w, handle_response res w = (Throw e, w)) \/
  (exists a e,
     forall w, handle_response res w =
       (Throw e,
        mkWorld (assign AnswerText a (page w)) (trace w ++ [EvWrite AnswerText a]))) \/
  (exists a s e,
     forall w, handle_response res w =
       (Throw e,
        mkWorld (assign SqlText s (assign AnswerText a (page w)))
                (trace w ++ [EvWrite AnswerText a; EvWrite SqlText s]))).
Proof.
  destruct (ok res) eqn:Hok.
  2:{ right. left. exists (mkError (http_message res)). intros w.
      unfold handle_response. unfold bind at 1. rewrite Hok. cbn [negb]. cbv iota.
      unfold bind at 1. cbv beta. now rewrite http_error_message_pure. }
  destruct (json res) as [data|e] eqn:Hjson.
  2:{ right. left. exists e. intros w.
      unfold handle_response. unfold bind at 1. rewrite Hok. cbn [negb]. cbv iota.
      unfold ret at 1. unfold bind at 1. unfold res_json, lift at 1.
      now rewrite Hjson. }
  destruct (get data "answer") as [answer|e] eqn:Hanswer.
  2:{ right. left. exists e. intros w.
      unfold handle_response. unfold bind at 1. rewrite Hok. cbn [negb]. cbv iota.
      unfold ret at 1. unfold bind at 1. unfold res_json, lift at 1. rewrite Hjson.
      unfold bind at 1. unfold lift at 1. now rewrite Hanswer. }
  destruct (text_of (js_or answer (VStr "(no summary)"))) as [a|e] eqn:Ha.
  2:{ right. left. exists e. intros w.
      unfold handle_response. unfold bind at 1. rewrite Hok. cbn [negb]. cbv iota.
      unfold ret at 1. unfold bind at 1. unfold res_json, lift at 1. rewrite Hjson.
      unfold bind at 1. unfold lift at 1. rewrite Hanswer.
      unfold bind at 1. unfold lift at 1. now rewrite Ha. }
  destruct (@get_ok_any _ _ _ "sql" Hanswer) as (sql & Hsql).
  destruct (text_of (js_or sql (VStr "(no SQL returned)"))) as [s|e] eqn:Hs.
  2:{ right. right. left. exists a, e. intros w.
      rewrite handle_response_answer with (data := data) (answer := answer) (a := a)
        by assumption.
      unfold bind at 1. unfold lift at 1. rewrite Hsql.
      unfold bind at 1. unfold lift at 1. now rewrite Hs. }
  assert (Hrun := fun w =>
            @handle_response_after_writes res data answer sql a s w
                                          Hok Hjson Hanswer Ha Hsql Hs).
  destruct (has_rows data) as [b|e] eqn:Hrows.
  2:{ right. right. right. exists a, s, e. intros w. rewrite Hrun.
      unfold bind, lift. try rewrite Hrows. reflexivity. }
  destruct b.
  - destruct (tableHTML data) as [html|e] eqn:Htable.
    + left. exists a, s, html. split.
      * right. now apply tableHTML_texts with (data := data).
      * intros w. rewrite Hrun. unfold bind, lift, write.
        try rewrite Hrows. try rewrite Htable.
        cbn [page trace]. now rewrite <- app_assoc.
    + right. right. right. exists a, s, e. intros w. rewrite Hrun.
      unfold bind, lift. try rewrite Hrows. try rewrite Htable. reflexivity.
  - left. exists a, s, "<p>No data found.</p>". split; [now left|].
    intros w. rewrite Hrun. unfold bind, lift, write. try rewrite Hrows.
    cbn [page trace]. now rewrite <- app_assoc.
Qed.

Lemma on_failure_run (e : JsError) (w : World) :
  on_failure e w =
  (Ok tt,
   mkWorld (assign AnswerText (failure_text e) (page w))
           (trace w ++ [EvConsoleError e; EvWrite AnswerText (failure_text e)])).
Proof.
  unfold on_failure, bind, console_error, write, emit, failure_text, best_message.
  cbn [page trace]. now rewrite <- app_assoc.
Qed.

(** What an ending leaves on a page whose query text and table were empty. *)
Lemma Ending_replay (evs : list Event) (a s t : string) (p : Page) :
  Ending evs a s t ->
  sqlEl_textContent p = "" -> tableEl_innerHTML p = "" ->
  replay evs p = mkPage (questionInput_value p) (output_style_display p) a s t.
Proof.
  intros [a' s' t' _ | e | a' e | a' s' e] Hs Ht; simpl; try reflexivity.
  - now rewrite Hs, Ht.
  - now rewrite Hs, Ht.
  - now rewrite Ht.
Qed.

(** Lines 93-129 always return, and go one of the four ways. *)
Lemma settle_endings (outcome : Result Response) :
  exists evs a s t,
    Ending evs a s t /\
    forall w, settle outcome w =
              (Ok tt, mkWorld (replay evs (page w)) (trace w ++ evs)).
Proof.
  unfold settle, try_catch. unfold bind at 1. unfold lift.
  destruct outcome as [res|e].
  - destruct (handle_response_paths res)
      as [(a & s & t & Ht & Hrun) | [(e & Hrun) | [(a & e & Hrun) | (a & s & e & Hrun)]]].
    + exists [EvWrite AnswerText a; EvWrite SqlText s; EvWrite TableHTML t], a, s, t.
      split; [now constructor|]. intros w. now rewrite Hrun.
    + exists [EvConsoleError e; EvWrite AnswerText (failure_text e)],
             (failure_text e), "", "".
      split; [constructor|]. intros w. rewrite Hrun. apply on_failure_run.
    + exists [EvWrite AnswerText a;
              EvConsoleError e; EvWrite AnswerText (failure_text e)],
             (failure_text e), "", "".
      split; [constructor|]. intros w. rewrite Hrun, on_failure_run.
      cbn [page trace replay]. now rewrite <- app_assoc.
    + exists [EvWrite AnswerText a; EvWrite SqlText s;
              EvConsoleError e; EvWrite AnswerText (failure_text e)],
             (failure_text e), s, "".
      split; [constructor|]. intros w. rewrite Hrun, on_failure_run.
      cbn [page trace replay]. now rewrite <- app_assoc.
  - exists [EvConsoleError e; EvWrite AnswerText (failure_text e)],
           (failure_text e), "", "".
    split; [constructor|]. intros w. apply on_failure_run.
Qed.

Lemma attempt_settle (net : Network) (req : Request) (w : World) :
  try_catch (bind (fetch net req) handle_response) on_failure w =
  settle (net req) (emit (EvFetch req) w).
Proof. reflexivity. Qed.

(** Lines 15-25 of the earlier handler. *)
Lemma askBtn_click_v1_attempt (net : Network) (w : World) :
  nonempty (question_of w) = true ->
  askBtn_click_v1 net w =
  try_catch
    (bind (fetch net (ask_request "http://127.0.0.1:8000/ask" (question_of w)))
          handle_response)
    on_failure
    (mkWorld (pending_page "Thinking..." (page w))
             (trace w ++ pending_writes "Thinking...")).
Proof.
  intros H. unfold askBtn_click_v1, question_of in *.
  unfold bind at 1. unfold read_question. rewrite H. cbn [negb]. cbv iota.
  unfold bind at 1 2 3 4. unfold write. simpl.
  rewrite <- !app_assoc. reflexivity.
Qed.

(** From the pending page on, both handlers are [settle] after one request. *)
Lemma pending_then_settle (placeholder : string) (net : Network) (req : Request)
      (w : World) :
  exists evs a s t,
    Ending evs a s t /\
    (forall w', settle (net req) w' =
                (Ok tt, mkWorld (replay evs (page w')) (trace w' ++ evs))) /\
    try_catch (bind (fetch net req) handle_response) on_failure
      (mkWorld (pending_page placeholder (page w))
               (trace w ++ pending_writes placeholder)) =
    (Ok tt,
     mkWorld (mkPage (questionInput_value (page w)) "block" a s t)
             (trace w ++ pending_events placeholder req ++ evs)).
Proof.
  destruct (settle_endings (net req)) as (evs & a & s & t & Hend & Hrun).
  exists evs, a, s, t. split; [exact Hend|]. split; [exact Hrun|].
  rewrite attempt_settle, Hrun. unfold emit, pending_events. cbn [page trace].
  f_equal. apply world_eq.
  - now rewrite (Ending_replay _ Hend).
  - now rewrite <- !app_assoc.
Qed.

End Paths.

(** ** A whole activation, from what lines 93-129 do *)

Section Scripts.
Context {engine : JsEngine}.
Variable origin : string.

Lemma askBtn_click_settle (net : Network) (w : World) :
  nonempty (question_of w) = true ->
  askBtn_click origin net w =
  settle (net (request_of origin w))
         (emit (EvFetch (request_of origin w))
               (mkWorld (pending_page "⏳ Thinking..." (page w))
                        (trace w ++ pending_writes "⏳ Thinking..."))).
Proof. intros H. now rewrite (askBtn_click_attempt origin net w H). Qed.

Lemma askBtn_click_v1_settle (net : Network) (w : World) :
  nonempty (question_of w) = true ->
  askBtn_click_v1 net w =
  settle (net (ask_request "http://127.0.0.1:8000/ask" (question_of w)))
         (emit (EvFetch (ask_request "http://127.0.0.1:8000/ask" (question_of w)))
               (mkWorld (pending_page "Thinking..." (page w))
                        (trace w ++ pending_writes "Thinking..."))).
Proof. intros H. now rewrite (askBtn_click_v1_attempt net w H). Qed.

(** The handler is its first half followed by [settle]. *)
Lemma askBtn_click_halves (net : Network) (w : World) :
  nonempty (question_of w) = true ->
  askBtn_click origin net w =
  settle (net (request_of origin w)) (snd (askBtn_click_begin origin w)).
Proof.
  intros H. rewrite (askBtn_click_settle net w H). f_equal.
  unfold askBtn_click_begin, question_of in *.
  unfold bind at 1. unfold read_question. rewrite H. cbn [negb]. cbv iota.
  unfold bind, write, emit. simpl. apply world_eq; [reflexivity|].
  now rewrite <- !app_assoc.
Qed.

(** When the events of [settle] are known, so are the page and the events of
    the whole activation. *)
Lemma activate_script (net : Network) (w : World) (evs : list Event) :
  nonempty (question_of w) = true ->
  (forall w', settle (net (request_of origin w)) w' =
              (Ok tt, mkWorld (replay evs (page w')) (trace w' ++ evs))) ->
  page (activate origin net w) =
    replay evs (pending_page "⏳ Thinking..." (page w)) /\
  emitted w (activate origin net w) =
    (pending_events "⏳ Thinking..." (request_of origin w) ++ evs)%list.
Proof.
  intros H Hrun. unfold activate. rewrite (askBtn_click_settle net w H), Hrun.
  unfold emit. cbn [snd page trace]. split; [reflexivity|].
  unfold pending_events. rewrite <- !app_assoc.
  unfold emitted. cbn [trace]. now rewrite skipn_app, skipn_all, Nat.sub_diag.
Qed.

(** [settle] on a response, from what [handle_response] does. *)
Lemma settle_returns (res : Response) (evs : list Event) :
  (forall w, handle_response res w =
             (Ok tt, mkWorld (replay evs (page w)) (trace w ++ evs))) ->
  forall w, settle (Ok res) w =
            (Ok tt, mkWorld (replay evs (page w)) (trace w ++ evs)).
Proof.
  intros Hrun w. unfold settle, try_catch. unfold bind at 1. unfold lift.
  now rewrite Hrun.
Qed.

Lemma settle_catches (res : Response) (evs : list Event) (e : JsError) :
  (forall w, handle_response res w =
             (Throw e, mkWorld (replay evs (page w)) (trace w ++ evs))) ->
  forall w, settle (Ok res) w =
            (Ok tt,
             mkWorld (replay (evs ++ [EvConsoleError e;
                                      EvWrite AnswerText (failure_text e)]) (page w))
                     (trace w ++ evs ++ [EvConsoleError e;
                                         EvWrite AnswerText (failure_text e)])).
Proof.
  intros Hrun w. unfold settle, try_catch. unfold bind at 1. unfold lift.
  rewrite Hrun, on_failure_run. cbn [page trace].
  rewrite replay_app. cbn [replay]. now rewrite <- app_assoc.
Qed.

Lemma settle_catches_at_once (res : Response) (e : JsError) :
  (forall w, handle_response res w = (Throw e, w)) ->
  forall w, settle (Ok res) w =
            (Ok tt,
             mkWorld (replay [EvConsoleError e;
                              EvWrite AnswerText (failure_text e)] (page w))
                     (trace w ++ [EvConsoleError e;
                                  EvWrite AnswerText (failure_text e)])).
Proof.
  intros Hrun w. unfold settle, try_catch. unfold bind at 1. unfold lift.
  rewrite Hrun. apply on_failure_run.
Qed.

(** Lines 104-129 when both texts convert: the two writes, then the table or
    the error of lines 111-121. *)
Lemma settle_after_writes (res : Response) (data answer sql : value)
      (a s : string) :
  ok res = true ->
  json res = Ok data ->
  get data "answer" = Ok answer ->
  text_of (js_or answer (VStr "(no summary)")) = Ok a ->
  get data "sql" = Ok sql ->
  text_of (js_or sql (VStr "(no SQL returned)")) = Ok s ->
  forall w,
    settle (Ok res) w =
    (Ok tt,
     let evs :=
       match table_result data with
       | Ok t => [EvWrite AnswerText a; EvWrite SqlText s; EvWrite TableHTML t]
       | Throw e => [EvWrite AnswerText a; EvWrite SqlText s;
                     EvConsoleError e; EvWrite AnswerText (failure_text e)]
       end in
     mkWorld (replay evs (page w)) (trace w ++ evs)).
Proof.
  intros Hok Hjson Hanswer Ha Hsql Hs.
  assert (Hrun := fun w =>
            @handle_response_after_writes _ res data answer sql a s w
                                          Hok Hjson Hanswer Ha Hsql Hs).
  unfold table_result.
  destruct (has_rows data) as [b|e] eqn:Hrows; cbn [rbind].
  2:{ apply (settle_catches res [EvWrite AnswerText a; EvWrite SqlText s]).
      intros w. rewrite Hrun. unfold bind, lift. try rewrite Hrows. reflexivity. }
  destruct b.
  - destruct (tableHTML data) as [html|e] eqn:Htable.
    + apply (settle_returns res
               [EvWrite AnswerText a; EvWrite SqlText s; EvWrite TableHTML html]).
      intros w. rewrite Hrun. unfold bind, lift, write.
      try rewrite Hrows. try rewrite Htable.
      cbn [page trace replay]. now rewrite <- app_assoc.
    + apply (settle_catches res [EvWrite AnswerText a; EvWrite SqlText s]).
      intros w. rewrite Hrun. unfold bind, lift.
      try rewrite Hrows. try rewrite Htable. reflexivity.
  - apply (settle_returns res
             [EvWrite AnswerText a; EvWrite SqlText s;
              EvWrite TableHTML "<p>No data found.</p>"]).
    intros w. rewrite Hrun. unfold bind, lift, write. try rewrite Hrows.
    cbn [page trace replay]. now rewrite <- app_assoc.
Qed.

(** The same when the query text does not convert. *)
Lemma settle_between_writes (res : Response) (data answer sql : value)
      (a : string) (e : JsError) :
  ok res = true ->
  json res = Ok data ->
  get data "answer" = Ok answer ->
  text_of (js_or answer (VStr "(no summary)")) = Ok a ->
  get data "sql" = Ok sql ->
  text_of (js_or sql (VStr "(no SQL returned)")) = Throw e ->
  forall w,
    settle (Ok res) w =
    (Ok tt,
     mkWorld (replay [EvWrite AnswerText a; EvConsoleError e;
                      EvWrite AnswerText (failure_text e)] (page w))
             (trace w ++ [EvWrite AnswerText a; EvConsoleError e;
                          EvWrite AnswerText (failure_text e)])).
Proof.
  intros Hok Hjson Hanswer Ha Hsql Hs.
  apply (settle_catches res [EvWrite AnswerText a]).
  intros w.
  rewrite handle_response_answer with (data := data) (answer := answer) (a := a)
    by assumption.
  unfold bind at 1. unfold lift at 1. rewrite Hsql.
  unfold bind at 1. unfold lift at 1. now rewrite Hs.
Qed.

(** And when the read or the conversion of the answer throws. *)
Lemma settle_before_writes (res : Response) (data : value) (e : JsError) :
  ok res = true ->
  json res = Ok data ->
  rbind (get data "answer")
        (fun answer => text_of (js_or answer (VStr "(no summary)"))) = Throw e ->
  forall w,
    settle (Ok res) w =
    (Ok tt,
     mkWorld (replay [EvConsoleError e;
                      EvWrite AnswerText (failure_text e)] (page w))
             (trace w ++ [EvConsoleError e; EvWrite AnswerText (failure_text e)])).
Proof.
  intros Hok Hjson Hthrow.
  apply settle_catches_at_once. intros w.
  unfold handle_response. unfold bind at 1. rewrite Hok. cbn [negb]. cbv iota.
  unfold ret at 1. unfold bind at 1. unfold res_json, lift at 1. rewrite Hjson.
  unfold bind at 1. unfold lift at 1.
  destruct (get data "answer") as [answer|e']; cbn [rbind] in Hthrow.
  - unfold bind at 1. unfold lift at 1. now rewrite Hthrow.
  - now injection Hthrow as ->.
Qed.

End Scripts.

(** ** The order of the keys of a parsed object *)

Section KeyOrder.
Context {engine : JsEngine}.

Lemma filter_filter_and {A} (p q : A -> bool) (l : list A) :
  filter p (filter q l) = filter (fun x => q x && p x) l.
Proof.
  induction l as [|x l IH]; [reflexivity|]. cbn [filter].
  destruct (q x); cbn [filter andb]; [destruct (p x)|]; now rewrite IH.
Qed.

Lemma filter_true {A} (l : list A) : filter (fun _ => true) l = l.
Proof. induction l as [|x l IH]; [reflexivity|]. cbn [filter]. now rewrite IH. Qed.

Lemma filter_none {A} (p : A -> bool) (l : list A) :
  (forall x, In x l -> p x = false) -> filter p l = [].
Proof.
  induction l as [|x l IH]; intros H; [reflexivity|]. cbn [filter].
  rewrite (H x (or_introl eq_refl)). apply IH. intros y Hy. apply H. now right.
Qed.

Lemma keys_define (fields : list (string * value)) (k : string) (v : value) :
  map fst (define fields k v) =
  if has_key (map fst fields) k then map fst fields
  else (map fst fields ++ [k])%list.
Proof.
  unfold has_key. induction fields as [|[k' v'] fields IH]; [reflexivity|].
  cbn [define map fst existsb].
  destruct (k' =? k)%string eqn:Hk; cbn [orb map fst]; [reflexivity|].
  rewrite IH. now destruct (existsb _ (map fst fields)).
Qed.

Lemma has_key_app (ks : list string) (k x : string) :
  has_key (ks ++ [k]) x = has_key ks x || (k =? x)%string.
Proof. unfold has_key. rewrite existsb_app. cbn [existsb]. now rewrite orb_false_r. Qed.

Lemma keys_define_from (members acc : list (string * value)) :
  map fst (fold_left (fun fields kv => define fields (fst kv) (snd kv)) members acc) =
  (map fst acc ++
   filter (fun k => negb (has_key (map fst acc) k))
          (first_occurrences (map fst members)))%list.
Proof.
  revert acc; induction members as [|[k v] members IH]; intros acc.
  - cbn. now rewrite app_nil_r.
  - cbn [fold_left map fst snd first_occurrences filter]. rewrite IH, keys_define.
    destruct (has_key (map fst acc) k) eqn:Hk; cbn [negb].
    + f_equal. rewrite filter_filter_and. apply filter_ext. intros x.
      destruct (x =? k)%string eqn:Hx; cbn [negb andb]; [|reflexivity].
      apply String.eqb_eq in Hx. subst x. now rewrite Hk.
    + rewrite <- app_assoc. apply f_equal. apply (f_equal (cons k)).
      rewrite filter_filter_and. apply filter_ext. intros x.
      rewrite has_key_app, negb_orb, (String.eqb_sym k x).
      apply andb_comm.
Qed.

(** Repeated keys apart, an object holds its keys in the order of the text. *)
Lemma keys_define_all (members : list (string * value)) :
  map fst (define_all members) = first_occurrences (map fst members).
Proof.
  unfold define_all. rewrite keys_define_from. cbn [map app has_key existsb negb].
  apply filter_true.
Qed.

Lemma keys_named (fields : list (string * value)) :
  map fst (filter is_named fields) =
  filter (fun k => negb (is_index_key k)) (map fst fields).
Proof.
  induction fields as [|kv fields IH]; [reflexivity|].
  cbn [filter map]. unfold is_named at 1, is_index_key at 1.
  destruct (array_index (fst kv)); cbn [negb map]; now rewrite IH.
Qed.

Lemma insert_index_perm (i : N) (kv : string * value)
      (l : list (N * (string * value))) :
  Permutation (insert_index i kv l) ((i, kv) :: l).
Proof.
  induction l as [|[j kv'] l IH]; [reflexivity|]. cbn [insert_index].
  destruct (i <=? j)%N; [reflexivity|].
  rewrite IH. apply perm_swap.
Qed.

Lemma insert_index_sorted (i : N) (kv : string * value)
      (l : list (N * (string * value))) :
  StronglySorted by_index l -> StronglySorted by_index (insert_index i kv l).
Proof.
  induction 1 as [|[j kv'] l Hl IH Hj]; cbn [insert_index].
  - constructor; constructor.
  - destruct (i <=? j)%N eqn:Hij.
    + apply N.leb_le in Hij. constructor; [now constructor|].
      constructor; [exact Hij|].
      eapply Forall_impl; [|exact Hj]. unfold by_index. cbn [fst]. intros x Hx. lia.
    + apply N.leb_gt in Hij. constructor; [exact IH|].
      apply (Permutation_Forall (Permutation_sym (insert_index_perm i kv l))).
      constructor; [unfold by_index; cbn [fst]; lia | exact Hj].
Qed.

Lemma index_properties_sorted (fields : list (string * value)) :
  StronglySorted by_index (index_properties fields).
Proof.
  induction fields as [|kv fields IH]; [constructor|]. cbn [index_properties].
  destruct (array_index (fst kv)); [now apply insert_index_sorted | exact IH].
Qed.

Lemma index_properties_perm (fields : list (string * value)) :
  Permutation (map snd (index_properties fields))
              (filter (fun kv => negb (is_named kv)) fields).
Proof.
  induction fields as [|kv fields IH]; [reflexivity|].
  cbn [index_properties filter]. unfold is_named at 1.
  destruct (array_index (fst kv)) as [i|]; cbn [negb]; [|exact IH].
  rewrite (insert_index_perm i kv). cbn [map snd]. now constructor.
Qed.

Lemma index_properties_tied (fields : list (string * value)) :
  Forall (fun e => array_index (fst (snd e)) = Some (fst e)) (index_properties fields).
Proof.
  induction fields as [|kv fields IH]; [constructor|]. cbn [index_properties].
  destruct (array_index (fst kv)) as [i|] eqn:Hi; [|exact IH].
  apply (Permutation_Forall (Permutation_sym (insert_index_perm i kv _))).
  now constructor.
Qed.

Lemma sorted_keys (l : list (N * (string * value))) :
  StronglySorted by_index l ->
  Forall (fun e => array_index (fst (snd e)) = Some (fst e)) l ->
  StronglySorted (fun k k' => (index_of_key k <= index_of_key k')%N)
                 (map fst (map snd l)).
Proof.
  induction 1 as [|x l Hl IH Hx]; intros Htied; [constructor|].
  inversion Htied as [|? ? Hx_tied Hl_tied]; subst.
  cbn [map]. constructor; [now apply IH|].
  rewrite Forall_forall in *. intros k Hk.
  apply in_map_iff in Hk as (kv & <- & Hkv).
  apply in_map_iff in Hkv as (e & <- & He).
  unfold index_of_key. rewrite Hx_tied, (Hl_tied e He). exact (Hx e He).
Qed.

Lemma keys_indexed (fields : list (string * value)) :
  map fst (filter (fun kv => negb (is_named kv)) fields) =
  filter is_index_key (map fst fields).
Proof.
  induction fields as [|kv fields IH]; [reflexivity|].
  cbn [filter map]. unfold is_named at 1, is_index_key at 1.
  destruct (array_index (fst kv)); cbn [negb map]; now rewrite IH.
Qed.

(** [Object.keys] of a parsed object: the keys that are array indices, in
    ascending order, then the other keys in the order of the text, each at the
    place of its first occurrence. *)
Lemma parsed_keys (members : list (string * doc)) :
  exists indices,
    object_keys (parse (DObj members)) =
    Ok (indices ++
        filter (fun k => negb (is_index_key k))
               (first_occurrences (map fst members)))%list /\
    Permutation indices
                (filter is_index_key (first_occurrences (map fst members))) /\
    StronglySorted (fun k k' => (index_of_key k <= index_of_key k')%N) indices.
Proof.
  set (fields := define_all (map (fun kd => (fst kd, parse (snd kd))) members)).
  assert (Hkeys : map fst fields = first_occurrences (map fst members)).
  { unfold fields. rewrite keys_define_all, map_map. reflexivity. }
  exists (map fst (map snd (index_properties fields))). split; [|split].
  - cbn [parse object_keys]. fold fields. unfold property_order.
    now rewrite map_app, keys_named, Hkeys.
  - rewrite <- Hkeys, <- keys_indexed.
    apply Permutation_map, index_properties_perm.
  - apply sorted_keys; [apply index_properties_sorted | apply index_properties_tied].
Qed.

Lemma first_occurrences_NoDup (ks : list string) :
  NoDup ks -> first_occurrences ks = ks.
Proof.
  induction 1 as [|k ks Hk _ IH]; [reflexivity|].
  cbn [first_occurrences]. rewrite IH. f_equal.
  rewrite <- (filter_true ks) at 2. apply filter_ext_in. intros x Hx.
  destruct (x =? k)%string eqn:Hxk; [|reflexivity].
  apply String.eqb_eq in Hxk. now subst.
Qed.

(** Without array indices and repeated keys, the keys keep the order of the
    text. *)
Lemma parsed_keys_in_text_order (members : list (string * doc)) :
  NoDup (map fst members) ->
  (forall k, In k (map fst members) -> array_index k = None) ->
  object_keys (parse (DObj members)) = Ok (map fst members).
Proof.
  intros Hnodup Hnamed.
  destruct (parsed_keys members) as (indices & Hkeys & Hperm & _).
  rewrite first_occurrences_NoDup in * by exact Hnodup.
  assert (Hnone : filter is_index_key (map fst members) = []).
  { apply filter_none. intros k Hk. unfold is_index_key. now rewrite (Hnamed k Hk). }
  rewrite Hnone in Hperm. apply Permutation_sym, Permutation_nil in Hperm. subst.
  rewrite Hkeys. cbn [app]. f_equal.
  rewrite <- (filter_true (map fst members)) at 2. apply filter_ext_in.
  intros k Hk. unfold is_index_key. now rewrite (Hnamed k Hk).
Qed.

End KeyOrder.

(** ** A whole activation with a response that was read *)

Section Activations.
Context {engine : JsEngine}.
Variable origin : string.
Variable net : Network.
Variable w : World.

(** The answer and the query text convert: the page and the events follow
    from lines 111-124. *)
Lemma activation_after_writes (res : Response) (data answer sql : value)
      (a s : string) :
  nonempty (question_of w) = true ->
  net (request_of origin w) = Ok res ->
  ok res = true ->
  json res = Ok data ->
  get data "answer" = Ok answer ->
  text_of (js_or answer (VStr "(no summary)")) = Ok a ->
  get data "sql" = Ok sql ->
  text_of (js_or sql (VStr "(no SQL returned)")) = Ok s ->
  match table_result data with
  | Ok t =>
      page (activate origin net w) =
        mkPage (questionInput_value (page w)) "block" a s t /\
      emitted w (activate origin net w) =
        (pending_events "⏳ Thinking..." (request_of origin w) ++
         [EvWrite AnswerText a; EvWrite SqlText s; EvWrite TableHTML t])%list
  | Throw e =>
      page (activate origin net w) =
        mkPage (questionInput_value (page w)) "block" (failure_text e) s "" /\
      emitted w (activate origin net w) =
        (pending_events "⏳ Thinking..." (request_of origin w) ++
         [EvWrite AnswerText a; EvWrite SqlText s;
          EvConsoleError e; EvWrite AnswerText (failure_text e)])%list
  end.
Proof.
  intros H Hnet Hok Hjson Hanswer Ha Hsql Hs.
  assert (Hrun := @settle_after_writes _ res data answer sql a s
                                       Hok Hjson Hanswer Ha Hsql Hs).
  cbv zeta in Hrun.
  destruct (table_result data) as [t|e].
  - destruct (activate_script origin net w
                [EvWrite AnswerText a; EvWrite SqlText s; EvWrite TableHTML t] H)
      as (Hp & He); [intros w'; rewrite Hnet; apply Hrun|].
    rewrite Hp, He. now split.
  - destruct (activate_script origin net w
                [EvWrite AnswerText a; EvWrite SqlText s;
                 EvConsoleError e; EvWrite AnswerText (failure_text e)] H)
      as (Hp & He); [intros w'; rewrite Hnet; apply Hrun|].
    rewrite Hp, He. now split.
Qed.

(** The query text does not convert. *)
Lemma activation_between_writes (res : Response) (data answer sql : value)
      (a : string) (e : JsError) :
  nonempty (question_of w) = true ->
  net (request_of origin w) = Ok res ->
  ok res = true ->
  json res = Ok data ->
  get data "answer" = Ok answer ->
  text_of (js_or answer (VStr "(no summary)")) = Ok a ->
  get data "sql" = Ok sql ->
  text_of (js_or sql (VStr "(no SQL returned)")) = Throw e ->
  page (activate origin net w) =
    mkPage (questionInput_value (page w)) "block" (failure_text e) "" "" /\
  emitted w (activate origin net w) =
    (pending_events "⏳ Thinking..." (request_of origin w) ++
     [EvWrite AnswerText a; EvConsoleError e;
      EvWrite AnswerText (failure_text e)])%list.
Proof.
  intros H Hnet Hok Hjson Hanswer Ha Hsql Hs.
  assert (Hrun := @settle_between_writes _ res data answer sql a e
                                         Hok Hjson Hanswer Ha Hsql Hs).
  destruct (activate_script origin net w
              [EvWrite AnswerText a; EvConsoleError e;
               EvWrite AnswerText (failure_text e)] H)
    as (Hp & He); [intros w'; rewrite Hnet; apply Hrun|].
  rewrite Hp, He. now split.
Qed.

(** The answer cannot be read or does not convert. *)
Lemma activation_before_writes (res : Response) (data : value) (e : JsError) :
  nonempty (question_of w) = true ->
  net (request_of origin w) = Ok res ->
  ok res = true ->
  json res = Ok data ->
  rbind (get data "answer")
        (fun answer => text_of (js_or answer (VStr "(no summary)"))) = Throw e ->
  page (activate origin net w) =
    mkPage (questionInput_value (page w)) "block" (failure_text e) "" "" /\
  emitted w (activate origin net w) =
    (pending_events "⏳ Thinking..." (request_of origin w) ++
     [EvConsoleError e; EvWrite AnswerText (failure_text e)])%list.
Proof.
  intros H Hnet Hok Hjson Hthrow.
  assert (Hrun := @settle_before_writes _ res data e Hok Hjson Hthrow).
  destruct (activate_script origin net w
              [EvConsoleError e; EvWrite AnswerText (failure_text e)] H)
    as (Hp & He); [intros w'; rewrite Hnet; apply Hrun|].
  rewrite Hp, He. now split.
Qed.

(** What is known of the answer region once line 107 has written [a]: the
    write is among the events, the region holds [a] at the end if no error
    was logged, and the text of the error otherwise. *)
Lemma answer_once_written (res : Response) (data answer : value) (a : string) :
  nonempty (question_of w) = true ->
  net (request_of origin w) = Ok res ->
  ok res = true ->
  json res = Ok data ->
  get data "answer" = Ok answer ->
  text_of (js_or answer (VStr "(no summary)")) = Ok a ->
  In (EvWrite AnswerText a) (emitted w (activate origin net w)) /\
  (console_errors (emitted w (activate origin net w)) = [] ->
   answerEl_textContent (page (activate origin net w)) = a) /\
  (forall e, In e (console_errors (emitted w (activate origin net w))) ->
   answerEl_textContent (page (activate origin net w)) = failure_text e).
Proof.
  intros H Hnet Hok Hjson Hanswer Ha.
  destruct (@get_ok_any _ _ _ _ "sql" Hanswer) as (sql & Hsql).
  destruct (text_of (js_or sql (VStr "(no SQL returned)"))) as [s|e] eqn:Hs.
  - assert (Hcase := activation_after_writes H Hnet Hok Hjson Hanswer Ha Hsql Hs).
    destruct (table_result data) as [t|e]; destruct Hcase as (-> & ->).
    + split; [|split].
      * apply in_or_app. right. now left.
      * reflexivity.
      * intros e He. now cbn in He.
    + split; [|split].
      * apply in_or_app. right. now left.
      * cbn. discriminate.
      * intros e' He. cbn in He.
        destruct He as [<- | []]. reflexivity.
  - destruct (activation_between_writes H Hnet Hok Hjson Hanswer Ha Hsql Hs)
      as (-> & ->).
    split; [|split].
    + apply in_or_app. right. now left.
    + cbn. discriminate.
    + intros e' He. cbn in He.
      destruct He as [<- | []]. reflexivity.
Qed.

(** What is known of the query-text region once line 108 has written [s]:
    it holds [s] at the end, whatever happens afterwards. *)
Lemma sql_once_written (res : Response) (data answer sql : value) (a s : string) :
  nonempty (question_of w) = true ->
  net (request_of origin w) = Ok res ->
  ok res = true ->
  json res = Ok data ->
  get data "answer" = Ok answer ->
  text_of (js_or answer (VStr "(no summary)")) = Ok a ->
  get data "sql" = Ok sql ->
  text_of (js_or sql (VStr "(no SQL returned)")) = Ok s ->
  sqlEl_textContent (page (activate origin net w)) = s.
Proof.
  intros H Hnet Hok Hjson Hanswer Ha Hsql Hs.
  assert (Hcase := activation_after_writes H Hnet Hok Hjson Hanswer Ha Hsql Hs).
  destruct (table_result data); now destruct Hcase as (-> & _).
Qed.

End Activations.

(** * The claims *)

Section Claims.
Context {engine : JsEngine}.
Variable origin : string.
Variable net : Network.
Variable w : World.


(** C1. When the question is empty after trimming, an activation shows the
    alert and returns: the alert is the only event, so no request is issued,
    whatever the network would have answered.  Both handlers of the file
    behave so. *)
Theorem empty_question_alerts_without_request :
  question_of w = "" ->
  fst (askBtn_click origin net w) = Ok tt /\
  emitted w (activate origin net w) = [EvAlert "Please enter a question first!"] /\
  requests (emitted w (activate origin net w)) = [] /\
  fst (askBtn_click_v1 net w) = Ok tt /\
  emitted w (activate_v1 net w) = [EvAlert "Please enter a question first!"] /\
  requests (emitted w (activate_v1 net w)) = [].
Proof.
  intros H. unfold activate, activate_v1.
  rewrite (askBtn_click_empty origin net w H), (askBtn_click_v1_empty net w H).
  unfold emit. cbn [fst snd]. rewrite emitted_app. repeat split.
Qed.

(** C10. An activation aborted by the empty-question check leaves the page as
    it was: the visibility of the output container and the contents of the
    answer, query-text and table regions are unchanged. *)
Theorem aborted_activation_leaves_page :
  question_of w = "" ->
  page (activate origin net w) = page w.
Proof.
  intros H. unfold activate.
  rewrite (askBtn_click_empty origin net w H). reflexivity.
Qed.

(** C8. With a non-empty trimmed question the handler issues the request, and
    at that moment the output container is visible, the answer region holds
    the pending placeholder, and the query-text and table regions are empty,
    whatever they held before. *)
Theorem pending_state_before_request :
  question_of w <> "" ->
  (exists rest,
     emitted w (activate origin net w) =
     [EvWrite OutputDisplay "block"; EvWrite AnswerText "⏳ Thinking...";
      EvWrite SqlText ""; EvWrite TableHTML ""; EvFetch (request_of origin w)] ++ rest)%list /\
  page_at_fetch (emitted w (activate origin net w)) (page w) =
  Some (mkPage (questionInput_value (page w)) "block" "⏳ Thinking..." "" "").
Proof.
  intros H. apply nonempty_true in H.
  destruct (askBtn_click_prefix origin net w H) as (rest & Ht).
  assert (He : emitted w (activate origin net w) =
               (pending_events "⏳ Thinking..." (request_of origin w) ++ rest)%list).
  { unfold emitted. rewrite Ht, skipn_app, skipn_all, Nat.sub_diag. reflexivity. }
  split.
  - exists rest. exact He.
  - rewrite He. apply page_at_fetch_pending.
Qed.

(** C4. When an activation fails (no response at all, a response whose status
    is not a success, or a success body that is not JSON), the answer region
    holds the error indicator followed by the best available message, and the
    query-text and table regions are still empty. *)
Theorem failure_reported_in_answer_region (err : JsError) :
  question_of w <> "" ->
  Failure (net (request_of origin w)) err ->
  page (activate origin net w) =
  mkPage (questionInput_value (page w)) "block"
         ("❌ " ++ best_message err) "" "".
Proof.
  intros H Hfail. apply nonempty_true in H. unfold activate.
  rewrite (askBtn_click_failed origin net w H Hfail). reflexivity.
Qed.

(** C6, as amended.  When [fetch] yields no response, the answer region holds
    the error indicator followed by the message of the rejection, and by the
    generic text only when that message is empty; the query-text and table
    regions are empty. *)
Theorem transport_failure_message (e : JsError) :
  question_of w <> "" ->
  net (request_of origin w) = Throw e ->
  answerEl_textContent (page (activate origin net w)) =
    "❌ " ++ (if nonempty (message e) then message e
             else "Error connecting to backend.") /\
  sqlEl_textContent (page (activate origin net w)) = "" /\
  tableEl_innerHTML (page (activate origin net w)) = "".
Proof.
  intros H Hnet. apply nonempty_true in H. unfold activate.
  rewrite (askBtn_click_failed origin net w (err := e) H).
  - repeat split.
  - fold (request_of origin w). rewrite Hnet. constructor.
Qed.


(** C2, as amended.  A response whose status is not a success makes the
    [try] block raise an error whose message is [HTTP] and the status code,
    followed by [ - ] and the text of the body's [detail] field when the body
    is JSON and that field is truthy, or else of its [error] field when that
    one is truthy, provided the selected field converts to text; the message
    is the status alone when the body is not JSON, when neither field is
    truthy, or when the selected field does not convert.  The answer region
    ends up with the error indicator and that message.  For status 500 and
    the body [{detail: db down}] it holds both [500] and [db down]. *)
Theorem status_failure_message (res : Response) :
  question_of w <> "" ->
  net (request_of origin w) = Ok res ->
  ok res = false ->
  let code := "HTTP " ++ nat_to_string (status res) in
  (forall w', fst (handle_response res w') = Throw (mkError (http_message res))) /\
  In (EvConsoleError (mkError (http_message res))) (emitted w (activate origin net w)) /\
  answerEl_textContent (page (activate origin net w)) = "❌ " ++ http_message res /\
  (forall body d t,
     json res = Ok body -> truthy body = true ->
     get body "detail" = Ok d -> truthy d = true ->
     to_string d = Ok t ->
     http_message res = code ++ " - " ++ t) /\
  (forall body d e t,
     json res = Ok body -> truthy body = true ->
     get body "detail" = Ok d -> truthy d = false ->
     get body "error" = Ok e -> truthy e = true ->
     to_string e = Ok t ->
     http_message res = code ++ " - " ++ t) /\
  (forall body d x,
     json res = Ok body -> truthy body = true ->
     get body "detail" = Ok d -> truthy d = true ->
     to_string d = Throw x ->
     http_message res = code) /\
  (forall body d e x,
     json res = Ok body -> truthy body = true ->
     get body "detail" = Ok d -> truthy d = false ->
     get body "error" = Ok e -> truthy e = true ->
     to_string e = Throw x ->
     http_message res = code) /\
  (forall e, json res = Throw e -> http_message res = code) /\
  (forall body,
     json res = Ok body ->
     truthy body = false \/
     (exists d e, get body "detail" = Ok d /\ truthy d = false /\
                  get body "error" = Ok e /\ truthy e = false) ->
     http_message res = code) /\
  (status res = 500 ->
   json res = Ok (VObj [("detail", VStr "db down")]) ->
   answerEl_textContent (page (activate origin net w)) = "❌ HTTP 500 - db down" /\
   includes (answerEl_textContent (page (activate origin net w))) "500" = true /\
   includes (answerEl_textContent (page (activate origin net w))) "db down" = true).
Proof.
  intros H Hnet Hok code. apply nonempty_true in H.
  assert (Hfail : Failure (net (request_of origin w)) (mkError (http_message res)))
    by (rewrite Hnet; now constructor).
  assert (Hanswer : answerEl_textContent (page (activate origin net w)) =
                    "❌ " ++ http_message res).
  { unfold activate. rewrite (askBtn_click_failed origin net w H Hfail).
    cbn [snd page assign answerEl_textContent]. unfold best_message.
    cbn [message]. unfold http_message. reflexivity. }
  split; [|split; [|split; [exact Hanswer|]]].
  - intros w'. unfold handle_response. unfold bind at 1. rewrite Hok.
    cbn [negb]. cbv iota. unfold bind at 1. cbv beta.
    rewrite http_error_message_pure. reflexivity.
  - unfold activate. rewrite (askBtn_click_failed origin net w H Hfail).
    cbn [snd]. rewrite emitted_app. apply in_or_app. right. now left.
  - unfold http_message. fold code. repeat split.
    + intros body d t Hj Hb Hd Ht Hs. rewrite Hj, Hb. unfold detail_or_error.
      rewrite Hd. cbn [rbind]. rewrite Ht, Ht, Hs. reflexivity.
    + intros body d e t Hj Hb Hd Htd He Hte Hs. rewrite Hj, Hb.
      unfold detail_or_error.
      rewrite Hd. cbn [rbind]. rewrite Htd, He, Hte, Hs. reflexivity.
    + intros body d x Hj Hb Hd Ht Hs. rewrite Hj, Hb. unfold detail_or_error.
      rewrite Hd. cbn [rbind]. rewrite Ht, Ht, Hs. now rewrite append_nil_r.
    + intros body d e x Hj Hb Hd Htd He Hte Hs. rewrite Hj, Hb.
      unfold detail_or_error.
      rewrite Hd. cbn [rbind]. rewrite Htd, He, Hte, Hs. now rewrite append_nil_r.
    + intros e Hj. rewrite Hj. now rewrite append_nil_r.
    + intros body Hj [Hb | (d & e & Hd & Htd & He & Hte)]; rewrite Hj.
      * rewrite Hb. now rewrite append_nil_r.
      * destruct (truthy body); [|now rewrite append_nil_r]. unfold detail_or_error.
        rewrite Hd. cbn [rbind]. rewrite Htd, He, Hte. now rewrite append_nil_r.
    + rewrite Hanswer. unfold http_message. rewrite H0, H1. reflexivity.
    + rewrite Hanswer. unfold http_message. rewrite H0, H1. reflexivity.
    + rewrite Hanswer. unfold http_message. rewrite H0, H1. reflexivity.
Qed.

(** C3, as amended.  For a successful response whose answer and query text
    could be written and whose [rows] is a non-empty sequence of records, the
    table region holds a table whose header cells are the keys of the first
    record in the order [Object.keys] lists them, followed by one row per
    record whose cells are, for each header, the text of the record's own
    value under that key, else of what the record inherits under that name
    from the prototype of objects, else [undefined]; if one of these values
    does not convert to text the activation fails: the table region stays
    empty and the answer region shows the error.  The keys of a record keep
    the order of the body when none is an array index and none is repeated;
    in general the array indices come first, in ascending order, then the
    other keys in the order of the body, a repeated key at its first place.
    When [rows] is empty or absent the region holds the no-data paragraph
    and no table markup. *)
Theorem table_shows_rows_or_placeholder
        (res : Response) (fields : record) (a s : string) :
  question_of w <> "" ->
  net (request_of origin w) = Ok res ->
  ok res = true ->
  json res = Ok (VObj fields) ->
  shown_text fields "answer" "(no summary)" = Ok a ->
  shown_text fields "sql" "(no SQL returned)" = Ok s ->
  (forall (first : record) (others : list record) grid,
     own fields "rows" = Some (VArr (map VObj (first :: others))) ->
     map_result (fun r => map_result (cell_text r) (map fst first))
                (first :: others) = Ok grid ->
     page (activate origin net w) =
     mkPage (questionInput_value (page w)) "block" a s
            (table_of_texts (map fst first) grid)) /\
  (forall (first : record) (others : list record) e,
     own fields "rows" = Some (VArr (map VObj (first :: others))) ->
     map_result (fun r => map_result (cell_text r) (map fst first))
                (first :: others) = Throw e ->
     page (activate origin net w) =
     mkPage (questionInput_value (page w)) "block" (failure_text e) s "") /\
  (forall (r : record) h v, own r h = Some v -> cell_text r h = to_string v) /\
  (forall (r : record) h t,
     own r h = None -> inherited_text ObjectProto h = Some t ->
     cell_text r h = Ok t) /\
  (forall (r : record) h,
     own r h = None -> inherited_text ObjectProto h = None ->
     cell_text r h = Ok "undefined") /\
  (forall members : list (string * doc),
     NoDup (map fst members) ->
     (forall k, In k (map fst members) -> array_index k = None) ->
     object_keys (parse (DObj members)) = Ok (map fst members)) /\
  (forall members : list (string * doc),
     exists indices,
       object_keys (parse (DObj members)) =
       Ok (indices ++
           filter (fun k => negb (is_index_key k))
                  (first_occurrences (map fst members)))%list /\
       Permutation indices
                   (filter is_index_key (first_occurrences (map fst members))) /\
       StronglySorted (fun k k' => (index_of_key k <= index_of_key k')%N) indices) /\
  (own fields "rows" = Some (VArr []) \/ own fields "rows" = None ->
   page (activate origin net w) =
   mkPage (questionInput_value (page w)) "block" a s "<p>No data found.</p>" /\
   includes "<p>No data found.</p>" "<table" = false).
Proof.
  intros H Hnet Hok Hjson Ha Hs. apply nonempty_true in H.
  assert (Hcase := activation_after_writes origin net w H Hnet Hok Hjson
                     (get_field fields "answer") Ha (get_field fields "sql") Hs).
  split; [|split; [|split; [|split; [|split; [|split; [|split]]]]]].
  - intros first others grid Hrows Hgrid.
    rewrite (table_result_records _ Hrows), Hgrid in Hcase. now destruct Hcase.
  - intros first others e Hrows Hgrid.
    rewrite (table_result_records _ Hrows), Hgrid in Hcase. now destruct Hcase.
  - intros r h v Hv. unfold cell_text, member_text. cbn [proto_of own_property].
    now rewrite Hv.
  - intros r h t Hv Ht. unfold cell_text, member_text. cbn [proto_of own_property].
    now rewrite Hv, Ht.
  - intros r h Hv Ht. unfold cell_text, member_text. cbn [proto_of own_property].
    now rewrite Hv, Ht.
  - apply parsed_keys_in_text_order.
  - apply parsed_keys.
  - intros Hrows. rewrite (table_result_no_rows _ Hrows) in Hcase.
    split; [now destruct Hcase | reflexivity].
Qed.


(** C9, as amended.  For a successful response whose body is an object with
    an [answer] field that is present but falsy, the empty string in
    particular, line 107 writes the placeholder and not the field's value;
    the answer region still holds the placeholder at the end if no error was
    logged, and the error indicator and message if a later step threw.  A
    [sql] field that is present but falsy shows as its placeholder in the
    query-text region, once the answer was written. *)
Theorem falsy_fields_show_placeholders (res : Response) (fields : record) :
  question_of w <> "" ->
  net (request_of origin w) = Ok res ->
  ok res = true ->
  json res = Ok (VObj fields) ->
  (forall v, own fields "answer" = Some v -> truthy v = false ->
   In (EvWrite AnswerText "(no summary)") (emitted w (activate origin net w)) /\
   (console_errors (emitted w (activate origin net w)) = [] ->
    answerEl_textContent (page (activate origin net w)) = "(no summary)") /\
   (forall e, In e (console_errors (emitted w (activate origin net w))) ->
    answerEl_textContent (page (activate origin net w)) = failure_text e)) /\
  (forall v, own fields "sql" = Some v -> truthy v = false ->
   forall a, shown_text fields "answer" "(no summary)" = Ok a ->
   sqlEl_textContent (page (activate origin net w)) = "(no SQL returned)") /\
  (own fields "answer" = Some (VStr "") ->
   console_errors (emitted w (activate origin net w)) = [] ->
   answerEl_textContent (page (activate origin net w)) = "(no summary)") /\
  (own fields "sql" = Some (VStr "") ->
   forall a, shown_text fields "answer" "(no summary)" = Ok a ->
   sqlEl_textContent (page (activate origin net w)) = "(no SQL returned)").
Proof.
  intros H Hnet Hok Hjson. apply nonempty_true in H.
  assert (Hanswer : forall v, own fields "answer" = Some v -> truthy v = false ->
            In (EvWrite AnswerText "(no summary)") (emitted w (activate origin net w)) /\
            (console_errors (emitted w (activate origin net w)) = [] ->
             answerEl_textContent (page (activate origin net w)) = "(no summary)") /\
            (forall e, In e (console_errors (emitted w (activate origin net w))) ->
             answerEl_textContent (page (activate origin net w)) = failure_text e)).
  { intros v Hv Ht.
    apply answer_once_written
      with (res := res) (data := VObj fields) (answer := field fields "answer");
      try assumption; try apply get_field.
    unfold field. rewrite Hv. unfold js_or. now rewrite Ht. }
  assert (Hsql : forall v, own fields "sql" = Some v -> truthy v = false ->
            forall a, shown_text fields "answer" "(no summary)" = Ok a ->
            sqlEl_textContent (page (activate origin net w)) = "(no SQL returned)").
  { intros v Hv Ht a Ha.
    apply sql_once_written
      with (res := res) (data := VObj fields) (answer := field fields "answer")
           (sql := field fields "sql") (a := a);
      try assumption; try apply get_field.
    unfold field. rewrite Hv. unfold js_or. now rewrite Ht. }
  split; [exact Hanswer|]. split; [exact Hsql|]. split.
  - intros Hv. now apply (Hanswer (VStr "") Hv).
  - intros Hv. now apply (Hsql (VStr "") Hv).
Qed.

End Claims.

(** C5. The endpoint is a constant of the page: the path [/ask] on the page's
    own origin when that origin contains [onrender.com], the local address
    otherwise.  Every request of a session, however many activations it has
    and whatever the user types or the network answers, goes to that one
    address.  The earlier handler of the file always posts to the local
    address. *)
Theorem endpoint_resolution (origin : string) :
  ((exists pre post, origin = pre ++ "onrender.com" ++ post) ->
   API_URL origin = origin ++ "/ask") /\
  (~ (exists pre post, origin = pre ++ "onrender.com" ++ post) ->
   API_URL origin = "http://127.0.0.1:8000/ask") /\
  (forall (engine : JsEngine) (acts : list (string * Network)) (w : World),
     Forall (fun req => url req = API_URL origin)
            (requests (emitted w (session origin acts w)))) /\
  (forall (engine : JsEngine) (net : Network) (w : World),
     Forall (fun req => url req = "http://127.0.0.1:8000/ask")
            (requests (emitted w (activate_v1 net w)))).
Proof.
  repeat split.
  - intros Hin. apply includes_factor in Hin. unfold API_URL. now rewrite Hin.
  - intros Hout. unfold API_URL.
    destruct (includes origin "onrender.com") eqn:Hin; [|reflexivity].
    apply includes_factor in Hin. contradiction.
  - intros engine acts w. apply requests_targets.
    destruct (session_emits origin acts w) as (evs & Ht & HP).
    unfold emitted. now rewrite Ht, skipn_app, skipn_all, Nat.sub_diag.
  - intros engine net w. apply requests_targets.
    destruct (askBtn_click_v1_emits net w) as (evs & Ht & _ & HP).
    unfold emitted, activate_v1. now rewrite Ht, skipn_app, skipn_all, Nat.sub_diag.
Qed.

(** * Further properties of the handler *)

(** ** Every activation *)

Section Outcomes.
Context {engine : JsEngine}.
Variable origin : string.

Lemma table_markup_nonempty (t : string) : table_markup t -> t <> "".
Proof. intros [-> | (hs & grid & ->)]; discriminate. Qed.

(** X1. An activation with a question ends in one of four ways, whatever
    the network answers and whatever the body holds: the three regions are
    written and the table region holds a table or the no-data paragraph; or
    an error is logged before anything is shown, the answer region holds the
    error indicator with its message and the other two regions are empty; or
    the error comes after the answer was written and before the query text,
    the answer is replaced by the error and the other two regions are empty;
    or the error comes after the answer and the query text were written, the
    answer is replaced by the error, the query text stays and the table
    region is empty.  The output container is visible in all four. *)
Theorem activation_endings (net : Network) (w : World) :
  question_of w <> "" ->
  exists evs a s t,
    Ending evs a s t /\
    emitted w (activate origin net w) =
    (pending_events "⏳ Thinking..." (request_of origin w) ++ evs)%list /\
    page (activate origin net w) =
    mkPage (questionInput_value (page w)) "block" a s t.
Proof.
  intros H. apply nonempty_true in H.
  destruct (pending_then_settle "⏳ Thinking..." net (request_of origin w) w)
    as (evs & a & s & t & Hend & _ & Hrun).
  exists evs, a, s, t. split; [exact Hend|].
  unfold activate. rewrite (askBtn_click_attempt origin net w H).
  unfold request_of in Hrun. rewrite Hrun. cbn [snd page].
  split; [apply emitted_app | reflexivity].
Qed.

(** X2. An activation with a question issues exactly one request, whatever
    happens afterwards: a POST to the endpoint with the JSON content type and
    the trimmed question as its body; and it never shows the alert. *)
Theorem one_request_per_activation (net : Network) (w : World) :
  question_of w <> "" ->
  requests (emitted w (activate origin net w)) =
  [mkRequest (API_URL origin) "POST" [("Content-Type", "application/json")]
             (stringify_question (trim (questionInput_value (page w))))] /\
  alerts (emitted w (activate origin net w)) = [].
Proof.
  intros H.
  destruct (activation_endings net w H) as (evs & a & s & t & Hend & Hev & _).
  rewrite Hev. destruct Hend; split; reflexivity.
Qed.

(** X3. The handler never lets an error escape: for every page and every
    behaviour of the network and of the body, both handlers of the file
    return normally. *)
Theorem handler_never_rejects (net : Network) (w : World) :
  fst (askBtn_click origin net w) = Ok tt /\
  fst (askBtn_click_v1 net w) = Ok tt.
Proof.
  destruct (nonempty (question_of w)) eqn:H.
  - rewrite (askBtn_click_settle origin net w H), (askBtn_click_v1_settle net w H).
    split.
    + destruct (settle_endings (net (request_of origin w)))
        as (evs & a & s & t & _ & Hrun). now rewrite Hrun.
    + destruct (settle_endings
                  (net (ask_request "http://127.0.0.1:8000/ask" (question_of w))))
        as (evs & a & s & t & _ & Hrun). now rewrite Hrun.
  - apply nonempty_false in H.
    now rewrite (askBtn_click_empty origin net w H), (askBtn_click_v1_empty net w H).
Qed.

(** X4. After an activation with a question the table region is empty exactly
    when an error was logged to the console, and then the answer region holds
    the error indicator with the message of that error. *)
Theorem empty_table_means_failure (net : Network) (w : World) :
  question_of w <> "" ->
  (tableEl_innerHTML (page (activate origin net w)) = "" <->
   console_errors (emitted w (activate origin net w)) <> []) /\
  (forall e, In e (console_errors (emitted w (activate origin net w))) ->
   answerEl_textContent (page (activate origin net w)) = failure_text e).
Proof.
  intros H.
  destruct (activation_endings net w H) as (evs & a & s & t & Hend & Hev & Hpage).
  rewrite Hev, Hpage. cbn [tableEl_innerHTML answerEl_textContent].
  unfold pending_events, pending_writes. rewrite <- app_assoc.
  cbn [app console_errors].
  destruct Hend as [a s t Ht | e | a e | a s e]; cbn [console_errors].
  - split.
    + split; [intros Hempty; now apply table_markup_nonempty in Ht
             | intros Hne; now elim Hne].
    + intros e [].
  - split.
    + split; [discriminate | reflexivity].
    + intros e' [<- | []]. reflexivity.
  - split.
    + split; [discriminate | reflexivity].
    + intros e' [<- | []]. reflexivity.
  - split.
    + split; [discriminate | reflexivity].
    + intros e' [<- | []]. reflexivity.
Qed.

(** X5. Nothing of an earlier result survives an activation with a question:
    two pages with the same text in the question field end on the same page
    and go through the same events, whatever their regions held before. *)
Theorem no_stale_content (net : Network) (w w' : World) :
  questionInput_value (page w) = questionInput_value (page w') ->
  question_of w <> "" ->
  page (activate origin net w) = page (activate origin net w') /\
  emitted w (activate origin net w) = emitted w' (activate origin net w').
Proof.
  intros Hsame H. apply nonempty_true in H.
  assert (Hq : question_of w' = question_of w)
    by (unfold question_of; now rewrite Hsame).
  assert (H' : nonempty (question_of w') = true) by now rewrite Hq.
  unfold activate.
  rewrite (askBtn_click_settle origin net w H), (askBtn_click_settle origin net w' H').
  unfold request_of. rewrite Hq.
  destruct (settle_endings (net (ask_request (API_URL origin) (question_of w))))
    as (evs & a & s & t & _ & Hrun).
  rewrite !Hrun. unfold emit, pending_page. cbn [snd page trace]. rewrite Hsame.
  split; [reflexivity|].
  rewrite <- !app_assoc. unfold emitted. cbn [trace].
  now rewrite !skipn_app, !skipn_all, !Nat.sub_diag.
Qed.

(** X6. Clicking again changes nothing: with the same text in the field and a
    network that answers the same, a second activation ends on the page the
    first one ended on. *)
Theorem activation_idempotent (net : Network) (w : World) :
  page (activate origin net (activate origin net w)) =
  page (activate origin net w).
Proof.
  destruct (nonempty (question_of w)) eqn:H.
  - apply nonempty_true in H.
    destruct (activation_endings net w H) as (evs & a & s & t & _ & _ & Hpage).
    symmetry. apply no_stale_content; [|exact H]. now rewrite Hpage.
  - apply nonempty_false in H.
    assert (Hpage : page (activate origin net w) = page w)
      by (unfold activate; now rewrite (askBtn_click_empty origin net w H)).
    assert (H2 : question_of (activate origin net w) = "")
      by (unfold question_of; now rewrite Hpage).
    unfold activate at 1. rewrite (askBtn_click_empty origin net _ H2).
    reflexivity.
Qed.

(** X7. The earlier handler of the file ends on the same page as the later
    one whenever the network answers its request to the local address as it
    answers the later handler's request: the two differ in the address and in
    the pending text only, and the pending text never outlives an
    activation. *)
Theorem earlier_handler_same_page (net1 net2 : Network) (w : World) :
  net1 (ask_request "http://127.0.0.1:8000/ask" (question_of w)) =
  net2 (request_of origin w) ->
  page (activate_v1 net1 w) = page (activate origin net2 w).
Proof.
  intros Hnet. unfold activate, activate_v1.
  destruct (nonempty (question_of w)) eqn:H.
  - rewrite (askBtn_click_settle origin net2 w H), (askBtn_click_v1_settle net1 w H), Hnet.
    destruct (settle_endings (net2 (request_of origin w)))
      as (evs & a & s & t & Hend & Hrun).
    rewrite !Hrun. unfold emit. cbn [snd page].
    now rewrite !(Ending_replay _ Hend).
  - apply nonempty_false in H.
    now rewrite (askBtn_click_empty origin net2 w H), (askBtn_click_v1_empty net1 w H).
Qed.

End Outcomes.

(** ** Bodies that are not a payload *)

Section Bodies.
Context {engine : JsEngine}.
Variable origin : string.
Variable net : Network.
Variable w : World.

(** X8. A successful response whose body is the JSON value null fails at the
    first read of line 107: the answer region holds the error indicator with
    the engine's message for reading [answer] of null, and the query text and
    the table stay empty. *)
Theorem null_body_reported (res : Response) :
  question_of w <> "" ->
  net (request_of origin w) = Ok res ->
  ok res = true ->
  json res = Ok VNull ->
  page (activate origin net w) =
  mkPage (questionInput_value (page w)) "block"
         (failure_text (mkError (fault_message (ReadOfNullish "answer")))) "" "".
Proof.
  intros H Hnet Hok Hjson. apply nonempty_true in H.
  destruct (activation_before_writes origin net w (res := res) (data := VNull)
              (e := mkError (fault_message (ReadOfNullish "answer")))
              H Hnet Hok Hjson) as (Hp & _); [reflexivity | exact Hp].
Qed.

Lemma map_result_app {A B} (f : A -> Result B) (l1 l2 : list A) :
  map_result f (l1 ++ l2) =
  rbind (map_result f l1) (fun ys1 =>
    rbind (map_result f l2) (fun ys2 => Ok (ys1 ++ ys2)%list)).
Proof.
  induction l1 as [|x l1 IH].
  - change (([] ++ l2)%list) with l2. destruct (map_result f l2); reflexivity.
  - change (((x :: l1) ++ l2)%list) with (x :: (l1 ++ l2)%list).
    cbn [map_result]. rewrite IH.
    destruct (f x); [|reflexivity].
    destruct (map_result f l1); [|reflexivity].
    destruct (map_result f l2); reflexivity.
Qed.

(** X9. A null among the rows makes the activation fail after the answer and
    the query text were written: the query text stays, the answer is replaced
    by the error, the table region is empty.  A null first row fails in
    [Object.keys].  A null later row fails on reading its first cell, when
    the rows before it are records whose cells convert to text and the first
    of them has at least one key. *)
Theorem null_row_reported (res : Response) (fields : record) (a s : string) :
  question_of w <> "" ->
  net (request_of origin w) = Ok res ->
  ok res = true ->
  json res = Ok (VObj fields) ->
  shown_text fields "answer" "(no summary)" = Ok a ->
  shown_text fields "sql" "(no SQL returned)" = Ok s ->
  (forall others,
     own fields "rows" = Some (VArr (VNull :: others)) ->
     page (activate origin net w) =
     mkPage (questionInput_value (page w)) "block"
            (failure_text (mkError (fault_message KeysOfNullish))) s "") /\
  (forall h0 v0 (first : record) (more : list record) after grid,
     own fields "rows" =
       Some (VArr (map VObj (((h0, v0) :: first) :: more) ++ VNull :: after)) ->
     map_result (fun r => map_result (cell_text r) (h0 :: map fst first))
                (((h0, v0) :: first) :: more) = Ok grid ->
     page (activate origin net w) =
     mkPage (questionInput_value (page w)) "block"
            (failure_text (mkError (fault_message (ReadOfNullish h0)))) s "").
Proof.
  intros H Hnet Hok Hjson Ha Hs. apply nonempty_true in H.
  assert (Hcase := activation_after_writes origin net w H Hnet Hok Hjson
                     (get_field fields "answer") Ha (get_field fields "sql") Hs).
  split.
  - intros others Hrows.
    assert (Htable : table_result (VObj fields) =
                     Throw (mkError (fault_message KeysOfNullish))).
    { unfold table_result.
      rewrite has_rows_array with (items := VNull :: others) by exact Hrows.
      cbn [rbind]. unfold tableHTML. rewrite get_field. unfold field. rewrite Hrows.
      cbn [rbind get own_property]. change (parse_index "0") with (Some 0).
      reflexivity. }
    rewrite Htable in Hcase. now destruct Hcase.
  - intros h0 v0 first more after grid Hrows Hgrid.
    assert (Htable : table_result (VObj fields) =
                     Throw (mkError (fault_message (ReadOfNullish h0)))).
    { unfold table_result.
      rewrite has_rows_array
        with (items := (map VObj (((h0, v0) :: first) :: more) ++ VNull :: after)%list)
        by exact Hrows.
      cbn [map]. rewrite <- app_comm_cons. cbv iota.
      unfold tableHTML. rewrite get_field. unfold field. rewrite Hrows.
      cbn [map rbind get own_property]. change (parse_index "0") with (Some 0).
      rewrite <- app_comm_cons.
      cbn [String.eqb Ascii.eqb Bool.eqb nth_error rbind object_keys map fst].
      unfold array_map. rewrite app_comm_cons.
      change (VObj ((h0, v0) :: first) :: map VObj more)
        with (map VObj (((h0, v0) :: first) :: more)).
      rewrite map_result_app, map_result_map.
      assert (Hbefore : exists rows_html,
                map_result (fun r => row_html (h0 :: map fst first) (VObj r))
                           (((h0, v0) :: first) :: more) = Ok rows_html).
      { exists (map (fun texts =>
                  "<tr>" ++ join "" (map (fun c => "<td>" ++ c ++ "</td>") texts) ++
                  "</tr>") grid).
        transitivity
          (map_result
             (fun r => rbind (map_result (cell_text r) (h0 :: map fst first))
                (fun texts => Ok ("<tr>" ++
                   join "" (map (fun c => "<td>" ++ c ++ "</td>") texts) ++
                   "</tr>")))
             (((h0, v0) :: first) :: more)).
        - apply map_result_ext_in. intros r _. unfold cell_text.
          apply row_html_texts.
        - rewrite map_result_fuse, Hgrid. reflexivity. }
      destruct Hbefore as (rows_html & ->). reflexivity. }
    rewrite Htable in Hcase. now destruct Hcase.
Qed.

(** X10. A successful response whose body is JSON but neither null nor an
    object (a number, a string, a boolean, an array) is shown like an empty
    payload: both placeholders and the no-data paragraph. *)
Theorem scalar_body_shows_placeholders (res : Response) (data : value) :
  question_of w <> "" ->
  net (request_of origin w) = Ok res ->
  ok res = true ->
  json res = Ok data ->
  is_scalar_or_array data = true ->
  page (activate origin net w) =
  mkPage (questionInput_value (page w)) "block"
         "(no summary)" "(no SQL returned)" "<p>No data found.</p>".
Proof.
  intros H Hnet Hok Hjson Hdata. apply nonempty_true in H.
  assert (Hcase := fun Hanswer Hsql =>
            activation_after_writes origin net w (res := res) (data := data)
              (answer := VUndefined) (sql := VUndefined)
              (a := "(no summary)") (s := "(no SQL returned)")
              H Hnet Hok Hjson Hanswer eq_refl Hsql eq_refl).
  assert (Hfields : get data "answer" = Ok VUndefined /\
                    get data "sql" = Ok VUndefined /\
                    table_result data = Ok "<p>No data found.</p>")
    by (destruct data; try discriminate; now repeat split).
  destruct Hfields as (Hanswer & Hsql & Htable).
  specialize (Hcase Hanswer Hsql). rewrite Htable in Hcase. now destruct Hcase.
Qed.

(** X11. When [rows] is present but falsy (null, false, 0, the empty string)
    or a boolean or a number, and the answer and the query text could be
    written, the table region holds the no-data paragraph and the answer and
    query text are shown as usual. *)
Theorem rows_without_length_show_no_data (res : Response) (fields : record)
        (rows : value) (a s : string) :
  question_of w <> "" ->
  net (request_of origin w) = Ok res ->
  ok res = true ->
  json res = Ok (VObj fields) ->
  shown_text fields "answer" "(no summary)" = Ok a ->
  shown_text fields "sql" "(no SQL returned)" = Ok s ->
  own fields "rows" = Some rows ->
  has_no_length rows = true ->
  page (activate origin net w) =
  mkPage (questionInput_value (page w)) "block" a s "<p>No data found.</p>".
Proof.
  intros H Hnet Hok Hjson Ha Hs Hrows Hlen. apply nonempty_true in H.
  assert (Hcase := activation_after_writes origin net w H Hnet Hok Hjson
                     (get_field fields "answer") Ha (get_field fields "sql") Hs).
  assert (Htable : table_result (VObj fields) = Ok "<p>No data found.</p>").
  { unfold table_result, has_rows. rewrite get_field. unfold field. rewrite Hrows.
    cbn [rbind]. unfold has_no_length in Hlen.
    destruct (truthy rows) eqn:Ht; [|reflexivity].
    destruct rows; simpl in Hlen, Ht; try discriminate; reflexivity. }
  rewrite Htable in Hcase. now destruct Hcase.
Qed.

End Bodies.

(** ** The table *)

Section Table.
Context {engine : JsEngine}.

Lemma cell_text_agree (hs : list string) (r r' : record) :
  agree_on hs r r' ->
  map_result (cell_text r) hs = map_result (cell_text r') hs.
Proof.
  intros Hag. apply map_result_ext_in. intros h Hh.
  unfold cell_text, member_text. cbn [proto_of own_property].
  now rewrite (Hag h Hh).
Qed.

(** X12. The columns come from the first record alone: two result sets with
    the same first record, whose later records agree under the keys of that
    first record, give the same table, whatever else the later records
    hold. *)
Theorem columns_from_first_record
        (fields fields' first : record) (others others' : list record) :
  own fields "rows" = Some (VArr (map VObj (first :: others))) ->
  own fields' "rows" = Some (VArr (map VObj (first :: others'))) ->
  Forall2 (agree_on (map fst first)) others others' ->
  tableHTML (VObj fields) = tableHTML (VObj fields').
Proof.
  intros Hrows Hrows' Hag.
  rewrite tableHTML_records with (first := first) (others := others)
    by exact Hrows.
  rewrite tableHTML_records with (first := first) (others := others')
    by exact Hrows'.
  assert (Hmap : map_result (fun r => map_result (cell_text r) (map fst first)) others =
                 map_result (fun r => map_result (cell_text r) (map fst first)) others').
  { clear Hrows Hrows'.
    induction Hag as [|r r' rest rest' Hr _ IH]; [reflexivity|].
    cbn [map_result]. now rewrite IH, (cell_text_agree Hr). }
  cbn [map_result]. now rewrite Hmap.
Qed.

Lemma factor_here (x post : string) :
  exists pre post', x ++ post = pre ++ x ++ post'.
Proof. now exists "", post. Qed.

Lemma factor_left (a s x : string) :
  (exists pre post, s = pre ++ x ++ post) ->
  exists pre post, a ++ s = pre ++ x ++ post.
Proof.
  intros (pre & post & ->). exists (a ++ pre), post. now rewrite append_assoc.
Qed.

Lemma factor_trans (s y x : string) :
  (exists pre post, s = pre ++ y ++ post) ->
  (exists pre post, y = pre ++ x ++ post) ->
  exists pre post, s = pre ++ x ++ post.
Proof.
  intros (pre & post & ->) (pre' & post' & ->).
  exists (pre ++ pre'), (post' ++ post). now rewrite !append_assoc.
Qed.

Lemma join_cons (x : string) (l : list string) :
  join "" (x :: l) = x ++ join "" l.
Proof.
  unfold join. destruct l as [|y l]; simpl; [now rewrite append_nil_r | reflexivity].
Qed.

Lemma join_factor (x : string) (l : list string) :
  In x l -> exists pre post, join "" l = pre ++ x ++ post.
Proof.
  induction l as [|y l IH]; intros Hin; [destruct Hin|].
  rewrite join_cons. destruct Hin as [-> | Hin].
  - apply factor_here.
  - apply factor_left. now apply IH.
Qed.

Lemma table_has_header (hs : list string) (grid : list (list string)) (h : string) :
  In h hs ->
  exists pre post, table_of_texts hs grid = pre ++ ("<th>" ++ h ++ "</th>") ++ post.
Proof.
  intros Hh.
  apply factor_trans with (y := join "" (map (fun h => "<th>" ++ h ++ "</th>") hs)).
  - unfold table_of_texts. do 4 apply factor_left. apply factor_here.
  - apply join_factor. apply in_map_iff. now exists h.
Qed.

Lemma table_has_cell (hs : list string) (grid : list (list string))
      (texts : list string) (text : string) :
  In texts grid -> In text texts ->
  exists pre post, table_of_texts hs grid = pre ++ ("<td>" ++ text ++ "</td>") ++ post.
Proof.
  intros Hrow Hcell.
  apply factor_trans
    with (y := join "" (map (fun cells =>
                 "<tr>" ++ join "" (map (fun c => "<td>" ++ c ++ "</td>") cells) ++
                 "</tr>") grid)).
  - unfold table_of_texts. do 10 apply factor_left. apply factor_here.
  - apply factor_trans
      with (y := "<tr>" ++ join "" (map (fun c => "<td>" ++ c ++ "</td>") texts) ++
                 "</tr>").
    + apply join_factor. apply in_map_iff. now exists texts.
    + apply factor_left.
      assert (Hcells : exists pre post,
                join "" (map (fun c => "<td>" ++ c ++ "</td>") texts) =
                pre ++ ("<td>" ++ text ++ "</td>") ++ post)
        by (apply join_factor; apply in_map_iff; now exists text).
      destruct Hcells as (pre & post & ->).
      exists pre, (post ++ "</tr>"). now rewrite !append_assoc.
Qed.

(** X13. Keys and values go into the markup as they are, with no escaping:
    when an activation on a result set of records logs no error, the markup
    assigned to the table region contains the header cell of every key of the
    first record and, for every record and every such key the record has, the
    data cell with the text of the value (for a string, the string itself),
    character for character. *)
Theorem cells_inserted_verbatim
        (origin : string) (net : Network) (w : World)
        (res : Response) (fields first : record) (others : list record) :
  question_of w <> "" ->
  net (request_of origin w) = Ok res ->
  ok res = true ->
  json res = Ok (VObj fields) ->
  own fields "rows" = Some (VArr (map VObj (first :: others))) ->
  console_errors (emitted w (activate origin net w)) = [] ->
  (forall h, In h (map fst first) ->
     exists pre post,
       tableEl_innerHTML (page (activate origin net w)) =
       pre ++ ("<th>" ++ h ++ "</th>") ++ post) /\
  (forall r h v, In r (first :: others) -> In h (map fst first) ->
     own r h = Some v ->
     exists text,
       to_string v = Ok text /\
       exists pre post,
         tableEl_innerHTML (page (activate origin net w)) =
         pre ++ ("<td>" ++ text ++ "</td>") ++ post) /\
  (forall r h text, In r (first :: others) -> In h (map fst first) ->
     own r h = Some (VStr text) ->
     exists pre post,
       tableEl_innerHTML (page (activate origin net w)) =
       pre ++ ("<td>" ++ text ++ "</td>") ++ post).
Proof.
  intros H Hnet Hok Hjson Hrows Hquiet. apply nonempty_true in H.
  assert (Hgrid : exists grid,
            map_result (fun r => map_result (cell_text r) (map fst first))
                       (first :: others) = Ok grid /\
            tableEl_innerHTML (page (activate origin net w)) =
            table_of_texts (map fst first) grid).
  { destruct (text_of (js_or (field fields "answer") (VStr "(no summary)")))
      as [a|e] eqn:Ha.
    2:{ destruct (activation_before_writes origin net w (res := res)
                    (data := VObj fields) (e := e) H Hnet Hok Hjson)
          as (_ & Hev); [rewrite get_field; exact Ha|].
        rewrite Hev in Hquiet. discriminate Hquiet. }
    destruct (text_of (js_or (field fields "sql") (VStr "(no SQL returned)")))
      as [s|e] eqn:Hs.
    2:{ destruct (activation_between_writes origin net w H Hnet Hok Hjson
                    (get_field fields "answer") Ha (get_field fields "sql") Hs)
          as (_ & Hev).
        rewrite Hev in Hquiet. discriminate Hquiet. }
    assert (Hcase := activation_after_writes origin net w H Hnet Hok Hjson
                       (get_field fields "answer") Ha (get_field fields "sql") Hs).
    rewrite (table_result_records _ Hrows) in Hcase.
    destruct (map_result (fun r => map_result (cell_text r) (map fst first))
                         (first :: others)) as [grid|e].
    - exists grid. split; [reflexivity|]. now destruct Hcase as (-> & _).
    - destruct Hcase as (_ & Hev). rewrite Hev in Hquiet. discriminate Hquiet. }
  destruct Hgrid as (grid & Hgrid & ->).
  assert (Hcell : forall r h v, In r (first :: others) -> In h (map fst first) ->
            own r h = Some v ->
            exists text,
              to_string v = Ok text /\
              exists pre post,
                table_of_texts (map fst first) grid =
                pre ++ ("<td>" ++ text ++ "</td>") ++ post).
  { intros r h v Hr Hh Hv.
    destruct (map_result_In _ _ r Hgrid Hr) as (texts & Htexts & Hin).
    destruct (map_result_In _ _ h Htexts Hh) as (text & Htext & Hint).
    exists text. split.
    - unfold cell_text, member_text in Htext. cbn [proto_of own_property] in Htext.
      now rewrite Hv in Htext.
    - now apply table_has_cell with (texts := texts). }
  split; [|split].
  - intros h Hh. now apply table_has_header.
  - exact Hcell.
  - intros r h text Hr Hh Hv.
    destruct (Hcell r h (VStr text) Hr Hh Hv) as (text' & Htext & Hfactor).
    cbn [to_string] in Htext. injection Htext as <-. exact Hfactor.
Qed.

End Table.

(** ** Activations that overlap *)

Section Overlap.
Context {engine : JsEngine}.
Variable origin : string.

Lemma run_app (steps1 steps2 : list Step) (w : World) :
  run origin (steps1 ++ steps2) w = run origin steps2 (run origin steps1 w).
Proof.
  revert w; induction steps1 as [|[text|outcome] steps1 IH]; intros w;
    cbn [app run]; [reflexivity | apply IH | apply IH].
Qed.

(** A session without overlap is a run in which every request settles before
    the next click. *)
Lemma session_is_run (acts : list (string * Network)) (w : World) :
  Forall (fun act => trim (fst act) <> "") acts ->
  session origin acts w = run origin (steps_of origin acts) w.
Proof.
  intros Hacts. revert w.
  induction Hacts as [|[text net] acts Htext _ IH]; intros w; [reflexivity|].
  cbn [session steps_of flat_map fst snd]. fold (steps_of origin acts).
  rewrite run_app, IH. cbn [run]. f_equal.
  unfold activate. rewrite askBtn_click_halves; [reflexivity|].
  now apply nonempty_true.
Qed.

Lemma Ending_answer (evs : list Event) (a s t : string) (p : Page) :
  Ending evs a s t -> answerEl_textContent (replay evs p) = a.
Proof. now intros []. Qed.

(** X14. When activations overlap, the answer region shows the outcome of the
    activation that settled last, whatever questions were asked and whatever
    settled before: the answer after a settlement depends on the outcome of
    that settlement alone.  A click followed at once by the settlement of its
    own request is the handler run from its start to its end. *)
Theorem last_settlement_wins
        (steps steps' : list Step) (outcome : Result Response) (w w' : World) :
  answerEl_textContent (page (run origin (steps ++ [Settle outcome]) w)) =
  answerEl_textContent (page (run origin (steps' ++ [Settle outcome]) w')) /\
  (forall text net,
     trim text <> "" ->
     run origin
         [Click text; Settle (net (request_of origin (type_question text w)))] w =
     activate origin net (type_question text w)).
Proof.
  split.
  - rewrite !run_app. cbn [run].
    destruct (settle_endings outcome) as (evs & a & s & t & Hend & Hrun).
    rewrite !Hrun. cbn [snd page].
    now rewrite !(Ending_answer _ Hend).
  - intros text net Htext. cbn [run]. unfold activate.
    rewrite askBtn_click_halves; [reflexivity|].
    now apply nonempty_true.
Qed.

End Overlap.

(** * The claims on sample inputs *)

Import Sample.
#[local] Existing Instance AsciiEngine.

(** The example of the specification: one record with the columns x and y. *)
Example full_payload_page :
  page (activate local_origin (answers (success (VObj full_payload)))
                 (world " why is the yield low? ")) =
  mkPage " why is the yield low? " "block" "A" "S"
    "
        <table>
          <thead><tr><th>x</th><th>y</th></tr></thead>
          <tbody>
            <tr><td>1</td><td>2</td></tr>
          </tbody>
        </table>
      ".
Proof. reflexivity. Qed.

(** A record shows what it inherits under a header it does not own, and
    [undefined] only when it inherits nothing under that name. *)
Example inherited_cell :
  tableEl_innerHTML
    (page (activate local_origin
             (answers (success (VObj [("rows",
                VArr [VObj [("constructor", VStr "c"); ("size", VStr "1")];
                      VObj []])])))
             (world "yields"))) =
  "
        <table>
          <thead><tr><th>constructor</th><th>size</th></tr></thead>
          <tbody>
            <tr><td>c</td><td>1</td></tr><tr><td>function Object() { [native code] }</td><td>undefined</td></tr>
          </tbody>
        </table>
      ".
Proof. reflexivity. Qed.

(** A cell whose value has a [toString] of its own that is no function does
    not convert to text: nothing is rendered and the error is shown. *)
Example unconvertible_cell :
  page (activate local_origin
          (answers (success (VObj [("answer", VStr "A");
             ("rows", VArr [VObj [("x", VObj [("toString", VStr "t")])]])])))
          (world "yields")) =
  mkPage "yields" "block" "❌ Cannot convert object to primitive value"
         "(no SQL returned)" "".
Proof. reflexivity. Qed.

(** A body that is JSON but no payload: the answer written by line 107 is
    replaced by the error of the table code, the query text stays. *)
Example null_row_page :
  page (activate local_origin
          (answers (success (VObj [("rows", VArr [VNull])]))) (world "yields")) =
  mkPage "yields" "block" "❌ Cannot convert undefined or null to object"
         "(no SQL returned)" "".
Proof. reflexivity. Qed.

(** An error body whose [detail] does not convert to text: the status alone. *)
Example unconvertible_detail :
  answerEl_textContent
    (page (activate local_origin
             (answers (server_error (VObj [("detail",
                VObj [("toString", VStr "t")])])))
             (world "yields"))) =
  "❌ HTTP 500".
Proof. reflexivity. Qed.

(** The race of overlapping activations: the question about prices is asked
    first and answered last, so its answer is what the page shows although
    the field holds the later question; the failure of one activation leaves
    the table of another in place. *)
Example overlapping_activations :
  page (run local_origin
          [Click "prices"; Click "yields";
           Settle (Ok (success (VObj [("answer", VStr "about yields")])));
           Settle (Ok (success (VObj [("answer", VStr "about prices")])))]
          (world "")) =
  mkPage "yields" "block" "about prices" "(no SQL returned)"
         "<p>No data found.</p>" /\
  page (run local_origin
          [Click "prices"; Click "yields";
           Settle (Ok (success (VObj full_payload)));
           Settle (Throw (mkError "Failed to fetch"))]
          (world "")) =
  mkPage "yields" "block" "❌ Failed to fetch" "S"
    "
        <table>
          <thead><tr><th>x</th><th>y</th></tr></thead>
          <tbody>
            <tr><td>1</td><td>2</td></tr>
          </tbody>
        </table>
      ".
Proof. split; reflexivity. Qed.

Lemma empty_question_witness :
  question_of (engine := AsciiEngine) (world "   ") = "" /\
  emitted (world "   ")
          (activate render_origin (unreachable "never asked") (world "   ")) =
  [EvAlert "Please enter a question first!"].
Proof.
  split; [reflexivity|].
  apply (empty_question_alerts_without_request
           render_origin (unreachable "never asked") (world "   ")).
  reflexivity.
Defined.

Lemma aborted_activation_witness :
  question_of (engine := AsciiEngine) (world "") = "" /\
  page (activate render_origin (answers (success (VObj full_payload))) (world "")) =
  page (world "").
Proof.
  split; [reflexivity|].
  apply (aborted_activation_leaves_page
           render_origin (answers (success (VObj full_payload))) (world "")).
  reflexivity.
Defined.

Lemma pending_state_witness :
  question_of (engine := AsciiEngine) (world "yields") <> "" /\
  page_at_fetch
    (emitted (world "yields")
             (activate render_origin (unreachable "Failed to fetch") (world "yields")))
    (page (world "yields")) =
  Some (mkPage "yields" "block" "⏳ Thinking..." "" "").
Proof.
  split; [discriminate|].
  apply (pending_state_before_request
           render_origin (unreachable "Failed to fetch") (world "yields")).
  discriminate.
Defined.

Lemma failure_reported_witness :
  question_of (engine := AsciiEngine) (world "yields") <> "" /\
  Failure (answers not_json (request_of render_origin (world "yields")))
          (mkError "Unexpected token < in JSON at position 0") /\
  page (activate render_origin (answers not_json) (world "yields")) =
  mkPage "yields" "block" "❌ Unexpected token < in JSON at position 0" "" "".
Proof.
  split; [discriminate|]. split.
  - apply (ParseFailure not_json); reflexivity.
  - apply failure_reported_in_answer_region
      with (err := mkError "Unexpected token < in JSON at position 0").
    + discriminate.
    + apply (ParseFailure not_json); reflexivity.
Defined.

(** A rejection without a message is the one case that shows the generic
    text. *)
Lemma transport_failure_witness :
  question_of (world "yields") <> "" /\
  unreachable "" (request_of local_origin (world "yields")) = Throw (mkError "") /\
  answerEl_textContent
    (page (activate local_origin (unreachable "") (world "yields"))) =
  "❌ Error connecting to backend.".
Proof.
  split; [discriminate|]. split; [reflexivity|].
  apply (transport_failure_message
           local_origin (unreachable "") (world "yields") (e := mkError "")).
  - discriminate.
  - reflexivity.
Defined.

(** C6 as stated fails: the rejection of a browser carries its own message,
    and that message is shown instead of the generic text. *)
Lemma transport_failure_counterexample :
  let shown :=
    answerEl_textContent
      (page (activate local_origin (unreachable "Failed to fetch") (world "yields"))) in
  shown = "❌ Failed to fetch" /\
  shown <> "❌ Error connecting to backend." /\
  includes shown "Error connecting to backend." = false.
Proof. repeat split. discriminate. Qed.

Lemma status_failure_witness :
  question_of (world "yields") <> "" /\
  answers (server_error (VObj [("detail", VStr "db down")]))
          (request_of render_origin (world "yields")) =
  Ok (server_error (VObj [("detail", VStr "db down")])) /\
  ok (server_error (VObj [("detail", VStr "db down")])) = false /\
  answerEl_textContent
    (page (activate render_origin
                    (answers (server_error (VObj [("detail", VStr "db down")])))
                    (world "yields"))) =
  "❌ HTTP 500 - db down".
Proof.
  split; [discriminate|]. split; [reflexivity|]. split; [reflexivity|].
  destruct (status_failure_message
              render_origin
              (answers (server_error (VObj [("detail", VStr "db down")])))
              (world "yields")
              (res := server_error (VObj [("detail", VStr "db down")])))
    as (_ & _ & _ & _ & _ & _ & _ & _ & _ & Hexample).
  - discriminate.
  - reflexivity.
  - reflexivity.
  - apply Hexample; reflexivity.
Defined.

(** C2 as stated fails: a [detail] field that is present but falsy adds
    nothing to the message, which is the status alone. *)
Lemma status_failure_counterexample :
  let res := server_error (VObj [("detail", VBool false)]) in
  let shown :=
    answerEl_textContent
      (page (activate render_origin (answers res) (world "yields"))) in
  own [("detail", VBool false)] "detail" = Some (VBool false) /\
  presence_message res = "HTTP 500 - false" /\
  shown = "❌ HTTP 500" /\
  shown <> "❌ " ++ presence_message res /\
  includes shown "false" = false.
Proof. repeat split. discriminate. Qed.

Lemma table_witness :
  question_of (world "yields") <> "" /\
  answers (success (VObj ragged_payload)) (request_of local_origin (world "yields")) =
  Ok (success (VObj ragged_payload)) /\
  ok (success (VObj ragged_payload)) = true /\
  json (success (VObj ragged_payload)) = Ok (VObj ragged_payload) /\
  shown_text ragged_payload "answer" "(no summary)" = Ok "(no summary)" /\
  shown_text ragged_payload "sql" "(no SQL returned)" = Ok "(no SQL returned)" /\
  own ragged_payload "rows" = Some (VArr (map VObj [rice; wheat])) /\
  map_result (fun r => map_result (cell_text r) (map fst rice)) [rice; wheat] =
  Ok [["rice"; "42"]; ["wheat"; "undefined"]] /\
  page (activate local_origin (answers (success (VObj ragged_payload)))
                 (world "yields")) =
  mkPage "yields" "block" "(no summary)" "(no SQL returned)"
    "
        <table>
          <thead><tr><th>crop</th><th>yield</th></tr></thead>
          <tbody>
            <tr><td>rice</td><td>42</td></tr><tr><td>wheat</td><td>undefined</td></tr>
          </tbody>
        </table>
      ".
Proof.
  split; [discriminate|]. do 7 (split; [reflexivity|]).
  destruct (table_shows_rows_or_placeholder
              local_origin (answers (success (VObj ragged_payload))) (world "yields")
              (res := success (VObj ragged_payload)) (fields := ragged_payload)
              (a := "(no summary)") (s := "(no SQL returned)"))
    as (Hrows & _).
  - discriminate.
  - reflexivity.
  - reflexivity.
  - reflexivity.
  - reflexivity.
  - reflexivity.
  - rewrite (Hrows rice [wheat] [["rice"; "42"]; ["wheat"; "undefined"]]
                   eq_refl eq_refl).
    reflexivity.
Defined.

(** C3 as stated fails: the headers are not always in the order of the body.
    A first row the backend wrote as [{b: x, 1: y}] has its keys listed as
    [1], [b], so the column of [1] comes first. *)
Lemma table_counterexample :
  let body :=
    DObj [("rows", DArr [DObj [("b", DStr "x"); ("1", DStr "y")]])] in
  let shown :=
    tableEl_innerHTML
      (page (activate local_origin (answers (success (parse body)))
                      (world "yields"))) in
  shown =
  "
        <table>
          <thead><tr><th>1</th><th>b</th></tr></thead>
          <tbody>
            <tr><td>y</td><td>x</td></tr>
          </tbody>
        </table>
      " /\
  includes shown "<th>b</th><th>1</th>" = false /\
  includes shown "<th>1</th><th>b</th>" = true.
Proof. repeat split. Qed.



Lemma falsy_fields_witness :
  question_of (world "yields") <> "" /\
  answers (success (VObj blank_payload)) (request_of local_origin (world "yields")) =
  Ok (success (VObj blank_payload)) /\
  ok (success (VObj blank_payload)) = true /\
  json (success (VObj blank_payload)) = Ok (VObj blank_payload) /\
  own blank_payload "answer" = Some (VStr "") /\
  truthy (@VStr AsciiEngine "") = false /\
  console_errors
    (emitted (world "yields")
       (activate local_origin (answers (success (VObj blank_payload)))
                 (world "yields"))) = [] /\
  answerEl_textContent
    (page (activate local_origin (answers (success (VObj blank_payload)))
                    (world "yields"))) =
  "(no summary)".
Proof.
  split; [discriminate|]. do 6 (split; [reflexivity|]).
  destruct (falsy_fields_show_placeholders
              local_origin (answers (success (VObj blank_payload))) (world "yields")
              (res := success (VObj blank_payload)) (fields := blank_payload))
    as (Hanswer & _).
  - discriminate.
  - reflexivity.
  - reflexivity.
  - reflexivity.
  - destruct (Hanswer (VStr "") eq_refl eq_refl) as (_ & Hshown & _).
    apply Hshown. reflexivity.
Defined.

(** C9 as stated fails: with an empty [answer] and a null among the rows the
    placeholder is written and then replaced by the error of the table
    code. *)
Lemma falsy_fields_counterexample :
  let fields := [("answer", @VStr AsciiEngine ""); ("rows", VArr [VNull])] in
  let shown :=
    answerEl_textContent
      (page (activate local_origin (answers (success (VObj fields)))
                      (world "yields"))) in
  own fields "answer" = Some (VStr "") /\
  shown = "❌ Cannot convert undefined or null to object" /\
  shown <> "(no summary)".
Proof. repeat split. discriminate. Qed.

Lemma endpoint_witness :
  (exists pre post, render_origin = pre ++ "onrender.com" ++ post) /\
  API_URL render_origin = "https://crop-dcdl.onrender.com/ask" /\
  ~ (exists pre post, local_origin = pre ++ "onrender.com" ++ post) /\
  API_URL local_origin = "http://127.0.0.1:8000/ask".
Proof.
  assert (Hin : exists pre post, render_origin = pre ++ "onrender.com" ++ post)
    by (exists "https://crop-dcdl.", ""; reflexivity).
  assert (Hout : ~ (exists pre post, local_origin = pre ++ "onrender.com" ++ post))
    by (intros Hex; apply includes_factor in Hex; discriminate).
  split; [exact Hin|]. split; [|split; [exact Hout|]].
  - apply (proj1 (endpoint_resolution render_origin) Hin).
  - apply (proj1 (proj2 (endpoint_resolution local_origin)) Hout).
Defined.

(** * The further properties on sample inputs *)

Lemma activation_endings_witness :
  question_of (world "yields") <> "" /\
  exists evs a s t,
    Ending evs a s t /\
    emitted (world "yields")
            (activate local_origin (answers (success (VObj ragged_payload)))
                      (world "yields")) =
    (pending_events "⏳ Thinking..." (request_of local_origin (world "yields")) ++
     evs)%list /\
    page (activate local_origin (answers (success (VObj ragged_payload)))
                   (world "yields")) =
    mkPage "yields" "block" a s t.
Proof.
  split; [discriminate|].
  apply (activation_endings
           local_origin (answers (success (VObj ragged_payload))) (world "yields")).
  discriminate.
Defined.

Lemma one_request_witness :
  question_of (world "  yields ") <> "" /\
  requests (emitted (world "  yields ")
                    (activate render_origin (unreachable "Failed to fetch")
                              (world "  yields "))) =
  [mkRequest "https://crop-dcdl.onrender.com/ask" "POST"
             [("Content-Type", "application/json")]
             (stringify_question "yields")].
Proof.
  split; [discriminate|].
  apply (one_request_per_activation
           render_origin (unreachable "Failed to fetch") (world "  yields ")).
  discriminate.
Defined.

Lemma empty_table_witness :
  question_of (world "yields") <> "" /\
  (tableEl_innerHTML
     (page (activate local_origin (answers (success (VObj [("rows", VArr [VNull])])))
                     (world "yields"))) = "" <->
   console_errors
     (emitted (world "yields")
        (activate local_origin (answers (success (VObj [("rows", VArr [VNull])])))
                  (world "yields"))) <> []).
Proof.
  split; [discriminate|].
  apply (empty_table_means_failure
           local_origin (answers (success (VObj [("rows", VArr [VNull])])))
           (world "yields")).
  discriminate.
Defined.

Lemma no_stale_content_witness :
  questionInput_value (page (world "yields")) =
  questionInput_value (page (mkWorld (mkPage "yields" "block" "a" "b" "c")
                                     [EvAlert "earlier"])) /\
  question_of (world "yields") <> "" /\
  page (activate local_origin (answers (success (VObj full_payload)))
                 (world "yields")) =
  page (activate local_origin (answers (success (VObj full_payload)))
                 (mkWorld (mkPage "yields" "block" "a" "b" "c") [EvAlert "earlier"])).
Proof.
  split; [reflexivity|]. split; [discriminate|].
  apply (no_stale_content
           local_origin (answers (success (VObj full_payload)))
           (world "yields")
           (mkWorld (mkPage "yields" "block" "a" "b" "c") [EvAlert "earlier"])).
  - reflexivity.
  - discriminate.
Defined.

Lemma earlier_handler_witness :
  answers (success (VObj full_payload))
          (ask_request "http://127.0.0.1:8000/ask" (question_of (world "yields"))) =
  answers (success (VObj full_payload)) (request_of render_origin (world "yields")) /\
  page (activate_v1 (answers (success (VObj full_payload))) (world "yields")) =
  page (activate render_origin (answers (success (VObj full_payload)))
                 (world "yields")).
Proof.
  split; [reflexivity|].
  apply (earlier_handler_same_page
           render_origin
           (answers (success (VObj full_payload)))
           (answers (success (VObj full_payload)))
           (world "yields")).
  reflexivity.
Defined.

Lemma null_body_witness :
  question_of (world "yields") <> "" /\
  answers (success VNull) (request_of local_origin (world "yields")) =
  Ok (success VNull) /\
  ok (success VNull) = true /\
  json (success VNull) = Ok VNull /\
  page (activate local_origin (answers (success VNull)) (world "yields")) =
  mkPage "yields" "block" "❌ Cannot read properties of null (reading 'answer')"
         "" "".
Proof.
  split; [discriminate|]. do 3 (split; [reflexivity|]).
  apply (null_body_reported
           local_origin (answers (success VNull)) (world "yields")
           (res := success VNull)).
  - discriminate.
  - reflexivity.
  - reflexivity.
  - reflexivity.
Defined.

Lemma null_row_witness :
  question_of (world "yields") <> "" /\
  answers (success (VObj [("sql", VStr "S"); ("rows", VArr [VObj rice; VNull])]))
          (request_of local_origin (world "yields")) =
  Ok (success (VObj [("sql", VStr "S"); ("rows", VArr [VObj rice; VNull])])) /\
  shown_text [("sql", VStr "S"); ("rows", VArr [VObj rice; VNull])]
             "answer" "(no summary)" = Ok "(no summary)" /\
  shown_text [("sql", VStr "S"); ("rows", VArr [VObj rice; VNull])]
             "sql" "(no SQL returned)" = Ok "S" /\
  map_result (fun r => map_result (cell_text r) ["crop"; "yield"]) [rice] =
  Ok [["rice"; "42"]] /\
  page (activate local_origin
          (answers (success (VObj [("sql", VStr "S");
                                   ("rows", VArr [VObj rice; VNull])])))
          (world "yields")) =
  mkPage "yields" "block" "❌ Cannot read properties of null (reading 'crop')"
         "S" "".
Proof.
  split; [discriminate|]. do 4 (split; [reflexivity|]).
  destruct (null_row_reported
              local_origin
              (answers (success (VObj [("sql", VStr "S");
                                       ("rows", VArr [VObj rice; VNull])])))
              (world "yields")
              (res := success (VObj [("sql", VStr "S");
                                     ("rows", VArr [VObj rice; VNull])]))
              (fields := [("sql", VStr "S"); ("rows", VArr [VObj rice; VNull])])
              (a := "(no summary)") (s := "S"))
    as (_ & Hlater).
  - discriminate.
  - reflexivity.
  - reflexivity.
  - reflexivity.
  - reflexivity.
  - reflexivity.
  - apply (Hlater "crop" (VStr "rice") [("yield", @VNum AsciiEngine 42%Z)] [] []
                  [["rice"; "42"]]).
    + reflexivity.
    + reflexivity.
Defined.

Lemma scalar_body_witness :
  question_of (world "yields") <> "" /\
  answers (success (VArr [VStr "a"])) (request_of local_origin (world "yields")) =
  Ok (success (VArr [VStr "a"])) /\
  is_scalar_or_array (VArr [@VStr AsciiEngine "a"]) = true /\
  page (activate local_origin (answers (success (VArr [VStr "a"]))) (world "yields")) =
  mkPage "yields" "block" "(no summary)" "(no SQL returned)" "<p>No data found.</p>".
Proof.
  split; [discriminate|]. do 2 (split; [reflexivity|]).
  apply (scalar_body_shows_placeholders
           local_origin (answers (success (VArr [VStr "a"]))) (world "yields")
           (res := success (VArr [VStr "a"])) (data := VArr [VStr "a"])).
  - discriminate.
  - reflexivity.
  - reflexivity.
  - reflexivity.
  - reflexivity.
Defined.

Lemma rows_without_length_witness :
  question_of (world "yields") <> "" /\
  answers (success (VObj [("answer", VStr "A"); ("rows", VNull)]))
          (request_of local_origin (world "yields")) =
  Ok (success (VObj [("answer", VStr "A"); ("rows", VNull)])) /\
  shown_text [("answer", VStr "A"); ("rows", @VNull AsciiEngine)]
             "answer" "(no summary)" = Ok "A" /\
  shown_text [("answer", VStr "A"); ("rows", @VNull AsciiEngine)]
             "sql" "(no SQL returned)" = Ok "(no SQL returned)" /\
  own [("answer", VStr "A"); ("rows", @VNull AsciiEngine)] "rows" = Some VNull /\
  has_no_length (@VNull AsciiEngine) = true /\
  page (activate local_origin
          (answers (success (VObj [("answer", VStr "A"); ("rows", VNull)])))
          (world "yields")) =
  mkPage "yields" "block" "A" "(no SQL returned)" "<p>No data found.</p>".
Proof.
  split; [discriminate|]. do 5 (split; [reflexivity|]).
  apply (rows_without_length_show_no_data
           local_origin
           (answers (success (VObj [("answer", VStr "A"); ("rows", VNull)])))
           (world "yields")
           (res := success (VObj [("answer", VStr "A"); ("rows", VNull)]))
           (fields := [("answer", VStr "A"); ("rows", VNull)])
           (rows := VNull)).
  - discriminate.
  - reflexivity.
  - reflexivity.
  - reflexivity.
  - reflexivity.
  - reflexivity.
  - reflexivity.
  - reflexivity.
Defined.

Lemma columns_witness :
  own ragged_payload "rows" = Some (VArr (map VObj [rice; wheat])) /\
  own [("rows", VArr [VObj rice; VObj (wheat ++ [("region", VStr "north")])])] "rows" =
  Some (VArr (map VObj [rice; (wheat ++ [("region", VStr "north")])%list])) /\
  Forall2 (agree_on (map fst rice)) [wheat]
          [(wheat ++ [("region", VStr "north")])%list] /\
  tableHTML (VObj ragged_payload) =
  tableHTML (VObj [("rows", VArr [VObj rice;
                                  VObj (wheat ++ [("region", VStr "north")])])]).
Proof.
  assert (Hag : Forall2 (agree_on (map fst rice)) [wheat]
                        [(wheat ++ [("region", VStr "north")])%list]).
  { constructor; [|constructor].
    intros h [<- | [<- | []]]; reflexivity. }
  do 2 (split; [reflexivity|]). split; [exact Hag|].
  apply (columns_from_first_record
           ragged_payload
           [("rows", VArr [VObj rice;
                           VObj (wheat ++ [("region", VStr "north")])])]
           (first := rice) (others := [wheat])
           (others' := [(wheat ++ [("region", VStr "north")])%list])).
  - reflexivity.
  - reflexivity.
  - exact Hag.
Defined.

Lemma cells_verbatim_witness :
  question_of (world "yields") <> "" /\
  own ragged_payload "rows" = Some (VArr (map VObj [rice; wheat])) /\
  console_errors
    (emitted (world "yields")
       (activate local_origin (answers (success (VObj ragged_payload)))
                 (world "yields"))) = [] /\
  In wheat [rice; wheat] /\ In "crop" (map fst rice) /\
  own wheat "crop" = Some (VStr "wheat") /\
  exists pre post,
    tableEl_innerHTML
      (page (activate local_origin (answers (success (VObj ragged_payload)))
                      (world "yields"))) =
    pre ++ ("<td>" ++ "wheat" ++ "</td>") ++ post.
Proof.
  split; [discriminate|]. do 2 (split; [reflexivity|]).
  split; [right; now left|]. split; [now left|]. split; [reflexivity|].
  destruct (cells_inserted_verbatim
              local_origin (answers (success (VObj ragged_payload))) (world "yields")
              (res := success (VObj ragged_payload)) (fields := ragged_payload)
              (first := rice) (others := [wheat]))
    as (_ & _ & Hcells).
  - discriminate.
  - reflexivity.
  - reflexivity.
  - reflexivity.
  - reflexivity.
  - reflexivity.
  - apply (Hcells wheat "crop" "wheat").
    + right; now left.
    + now left.
    + reflexivity.
Defined.

Lemma last_settlement_wins_witness :
  trim "yields" <> "" /\
  answerEl_textContent
    (page (run local_origin
             ([Click "prices"; Click "yields";
               Settle (Ok (success (VObj [("answer", VStr "about yields")])))] ++
              [Settle (Ok (success (VObj [("answer", VStr "about prices")])))])
             (world ""))) =
  answerEl_textContent
    (page (run local_origin
             ([] ++ [Settle (Ok (success (VObj [("answer", VStr "about prices")])))])
             (world "anything"))) /\
  run local_origin
      [Click "yields";
       Settle (answers (success (VObj ragged_payload))
                       (request_of local_origin (type_question "yields" (world ""))))]
      (world "") =
  activate local_origin (answers (success (VObj ragged_payload)))
           (type_question "yields" (world "")).
Proof.
  split; [discriminate|].
  destruct (last_settlement_wins
              local_origin
              [Click "prices"; Click "yields";
               Settle (Ok (success (VObj [("answer", VStr "about yields")])))]
              []
              (Ok (success (VObj [("answer", VStr "about prices")])))
              (world "") (world "anything"))
    as (Hanswer & Hwhole).
  split; [exact Hanswer|].
  apply (Hwhole "yields" (answers (success (VObj ragged_payload)))).
  discriminate.
Defined.
